(** * Workspace extension migration: a model of
      [server/scripts/migrate-workspace-extensions.py]

    The script plans and applies the migration of legacy workspace
    configuration files to the explicit extension list.  This development
    embeds its functions ([normalize_extensions], [should_include_todos],
    [build_plan], [apply_plan], and around them
    [discover_workspace_files], [summarize], [print_plan] and [main]) and
    proves the properties the specification states about them, and further
    properties of the code.

    Conventions of the embedding:
    - a Python [str] is a [string] (one character per code point below 256);
    - a decoded JSON value is a [Json]; a JSON object is an association
      list, in insertion order, as a Python [dict] is;
    - the file system is a finite map from paths to nodes together with a
      fault table, so that every operation can fail as it can on a real
      system; a node is found by the parts of its path, without links and
      without [".."] to resolve; code that can raise runs in a
      state-and-exception monad in which the state survives the
      exception. *)

From Stdlib Require Import ZArith String Ascii List Bool.
From Stdlib Require Import Floats.SpecFloat.
From stdpp Require Import base strings gmap list pretty sorting.
Import ListNotations.
Local Open Scope string_scope.
Local Open Scope list_scope.

(** ** Decoded JSON values *)

(** What [json.loads] returns: [None], [bool], [int], [float], [str],
    [list], and [dict] with string keys.  A Python [int] is unbounded; a
    Python [float] is an IEEE 754 binary64, of which only the class (zero or
    not) matters here. *)
#[warnings="-register-all"] Inductive Json : Type :=
  | JNull
  | JBool (b : bool)
  | JInt (n : Z)
  | JFloat (f : spec_float)
  | JString (s : string)
  | JList (items : list Json)
  | JDict (fields : list (string * Json)).

(** A [dict] keeps its keys in insertion order. *)
Abbreviation Dict := (list (string * Json)).

(** The value at [key], if the key is present: the first binding counts (a
    [dict] never has two). *)
Fixpoint dict_lookup (d : Dict) (key : string) : option Json :=
  match d with
  | [] => None
  | (k, v) :: d' => if bool_decide (k = key) then Some v else dict_lookup d' key
  end.

(** [d.get(key)]: the value at [key], [None] when the key is absent. *)
Definition dict_get (d : Dict) (key : string) : Json :=
  match dict_lookup d key with
  | Some v => v
  | None => JNull
  end.

(** [d[key] = v]: an existing key keeps its position and takes the new
    value, a new key goes last. *)
Fixpoint dict_set (d : Dict) (key : string) (v : Json) : Dict :=
  match d with
  | [] => [(key, v)]
  | (k, x) :: d' =>
      if bool_decide (k = key) then (k, v) :: d' else (k, x) :: dict_set d' key v
  end.

(** ** Python primitives used by the script *)

(** [str.isspace] on one character, for code points below 256: the ASCII
    controls TAB, LF, VT, FF, CR, FS, GS, RS, US, the space, NEL (0x85) and
    the no-break space (0xA0). *)
Definition isspace (c : ascii) : bool :=
  let n := nat_of_ascii c in
  (((9 <=? n) && (n <=? 13)) || ((28 <=? n) && (n <=? 32))
   || (n =? 133) || (n =? 160))%nat.

Fixpoint lstrip (s : string) : string :=
  match s with
  | EmptyString => EmptyString
  | String c s' => if isspace c then lstrip s' else s
  end.

Fixpoint rstrip (s : string) : string :=
  match s with
  | EmptyString => EmptyString
  | String c s' =>
      match rstrip s' with
      | EmptyString => if isspace c then EmptyString else String c EmptyString
      | r => String c r
      end
  end.

(** [s.strip()]: leading and trailing whitespace removed. *)
Definition strip (s : string) : string := rstrip (lstrip s).

(** [s] is made of whitespace only. *)
Fixpoint all_space (s : string) : bool :=
  match s with
  | EmptyString => true
  | String c s' => isspace c && all_space s'
  end.

(** The first and the last character of a string, if any. *)
Definition first_char (s : string) : option ascii :=
  match s with
  | EmptyString => None
  | String c _ => Some c
  end.

Fixpoint last_char (s : string) : option ascii :=
  match s with
  | EmptyString => None
  | String c EmptyString => Some c
  | String _ s' => last_char s'
  end.

(** [bool(v)]: Python truthiness of a decoded JSON value. *)
Definition truthy (v : Json) : bool :=
  match v with
  | JNull => false
  | JBool b => b
  | JInt n => negb (n =? 0)%Z
  | JFloat (S754_zero _) => false
  | JFloat _ => true
  | JString s => negb (bool_decide (s = ""))
  | JList items => match items with [] => false | _ => true end
  | JDict fields => match fields with [] => false | _ => true end
  end.

(** ** [normalize_extensions] *)

(** The loop of [normalize_extensions], with its two accumulators: the set
    [seen] and the list [out]. *)
Fixpoint normalize_loop (value : list Json) (seen : gset string) (out : list string)
  : list string :=
  match value with
  | [] => out
  | item :: rest =>
      match item with
      | JString s =>
          let name := strip s in
          if bool_decide (name = "") then normalize_loop rest seen out
          else if bool_decide (name ∈ seen) then normalize_loop rest seen out
          else normalize_loop rest ({[name]} ∪ seen) (out ++ [name])
      | _ => normalize_loop rest seen out
      end
  end.

Definition normalize_extensions (value : Json) : list string :=
  match value with
  | JList items => normalize_loop items ∅ []
  | _ => []
  end.

(** *** The normalizer as the specification words it *)

(** The string items of a list, each trimmed, blanks dropped. *)
Fixpoint trimmed_names (items : list Json) : list string :=
  match items with
  | [] => []
  | JString s :: rest =>
      if bool_decide (strip s = "") then trimmed_names rest
      else strip s :: trimmed_names rest
  | _ :: rest => trimmed_names rest
  end.

(** Deduplication that keeps the first occurrence and its position. *)
Fixpoint first_occurrences (l : list string) : list string :=
  match l with
  | [] => []
  | x :: l' => x :: filter (λ y, y ≠ x) (first_occurrences l')
  end.


(** ** Results and the state-and-exception monad *)

(** The outcome of code that can raise: a value, or the text [str(err)] of
    the exception. *)
Inductive result (A : Type) : Type :=
  | Ok (a : A)
  | Raise (err : string).
Arguments Ok {A} a.
Arguments Raise {A} err.

(** A computation over a state [S] that can raise.  The state reached when
    the exception is raised is kept: what was written before the failure
    stays written. *)
Definition Exc (S A : Type) : Type := S → result A * S.

#[global] Instance Exc_ret {S} : MRet (Exc S) := λ A a s, (Ok a, s).

#[global] Instance Exc_bind {S} : MBind (Exc S) := λ A B k m s,
  match m s with
  | (Ok a, s') => k a s'
  | (Raise err, s') => (Raise err, s')
  end.

Definition raise {S A} (err : string) : Exc S A := λ s, (Raise err, s).

(** A pure step that can raise. *)
Definition lift {S A} (r : result A) : Exc S A := λ s, (r, s).

(** ** Paths *)

(** A [pathlib.Path] is the tuple of its [parts]; an absolute path has the
    root ["/"] as its first part. *)
Abbreviation Path := (list string).

Definition anchor (p : Path) : string :=
  match p with
  | "/" :: _ => "/"
  | _ => ""
  end.

(** The parts after the anchor. *)
Definition tail_parts (p : Path) : list string :=
  match p with
  | "/" :: t => t
  | _ => p
  end.

(** [p.name]: the final component, [""] when there is none. *)
Definition path_name (p : Path) : string := List.last (tail_parts p) "".

(** [p.parent]: a path without final component is its own parent. *)
Definition parent (p : Path) : Path :=
  match tail_parts p with
  | [] => p
  | _ => removelast p
  end.

(** [a / b] for a relative [b]. *)
Definition joinpath (a b : Path) : Path := (a ++ b)%list.

Fixpoint join_parts (l : list string) : string :=
  match l with
  | [] => ""
  | [x] => x
  | x :: l' => x +:+ "/" +:+ join_parts l'
  end.

(** [str(p)]. *)
Definition path_str (p : Path) : string :=
  match p with
  | [] => "."
  | "/" :: t => "/" +:+ join_parts t
  | _ => join_parts p
  end.

(** [name[:name.rfind('.')]], when [name] has a dot. *)
Fixpoint before_last_dot (name : string) : option string :=
  match name with
  | EmptyString => None
  | String c s' =>
      match before_last_dot s' with
      | Some r => Some (String c r)
      | None => if bool_decide (c = "."%char) then Some EmptyString else None
      end
  end.

Fixpoint lstrip_dots (s : string) : string :=
  match s with
  | String "." s' => lstrip_dots s'
  | _ => s
  end.

(** [p.stem]: the final component without its last suffix; the stem must
    keep a character that is not a dot. *)
Definition stem (p : Path) : string :=
  let name := path_name p in
  match before_last_dot name with
  | Some st => if bool_decide (lstrip_dots st = "") then name else st
  | None => name
  end.

(** [p.relative_to(other)]: [other] must be [p] or one of its ancestors;
    otherwise [ValueError]. *)
Definition relative_to (p other : Path) : result Path :=
  if bool_decide (anchor p = anchor other) && bool_decide (other `prefix_of` p)
  then Ok (drop (length other) p)
  else Raise ("'" +:+ path_str p +:+ "' is not in the subpath of '"
              +:+ path_str other +:+ "'").

(** [p.with_suffix(p.suffix + ".tmp")].  [pathlib] splits the final
    component into stem and suffix and [with_suffix] puts the stem and the
    new suffix together again, so that the final component gets [".tmp"]
    appended; a path without final component raises [ValueError]. *)
Definition with_tmp_suffix (p : Path) : result Path :=
  if bool_decide (path_name p = "")
  then Raise ("PosixPath('" +:+ path_str p +:+ "') has an empty name")
  else Ok (removelast p ++ [path_name p +:+ ".tmp"])%list.

(** ** The file system *)

Inductive Node : Type :=
  | File (content : string)
  | Dir.

(** The operations of the script that touch the file system. *)
Inductive Op : Type := OpRead | OpMkdir | OpCopy | OpWrite | OpReplace.

(** The world of one run: the nodes of the file system, the failures the
    environment imposes (permissions, I/O errors, undecodable bytes: [fault
    op p] is the text of the exception that [op] raises on [p]), and the
    lines written to standard error. *)
Record World : Type := {
  nodes : gmap (list string) Node;
  fault : Op → Path → option string;
  stderr : list string;
}.

Definition set_nodes (w : World) (n : gmap (list string) Node) : World :=
  {| nodes := n; fault := fault w; stderr := stderr w |}.

(** [print(line, file=sys.stderr)]. *)
Definition eprint (line : string) (w : World) : World :=
  {| nodes := nodes w; fault := fault w; stderr := (stderr w ++ [line])%list |}.

(** The root and the current directory always exist. *)
Definition is_dir (w : World) (p : Path) : bool :=
  match tail_parts p with
  | [] => true
  | _ => match nodes w !! p with Some Dir => true | _ => false end
  end.

(** [p.exists()]. *)
Definition exists_ (w : World) (p : Path) : bool :=
  is_dir w p || bool_decide (is_Some (nodes w !! p)).

Definition enoent (p : Path) : string :=
  "[Errno 2] No such file or directory: '" +:+ path_str p +:+ "'".
Definition eisdir (p : Path) : string :=
  "[Errno 21] Is a directory: '" +:+ path_str p +:+ "'".
Definition enotdir (p : Path) : string :=
  "[Errno 20] Not a directory: '" +:+ path_str p +:+ "'".
Definition eexist (p : Path) : string :=
  "[Errno 17] File exists: '" +:+ path_str p +:+ "'".

(** [p.read_text(encoding="utf-8")].  A file's content is its text. *)
Definition read_text (p : Path) : Exc World string :=
  λ w, match fault w OpRead p with
       | Some err => (Raise err, w)
       | None =>
           if is_dir w p then (Raise (eisdir p), w)
           else match nodes w !! p with
                | Some (File c) => (Ok c, w)
                | _ => (Raise (enoent p), w)
                end
       end.

(** [p.mkdir(parents=True, exist_ok=True)], from the anchor down: an
    existing directory is kept, a missing one is created, a file in the way
    raises; the exception names [p], the directory asked for. *)
Fixpoint mkdir_from (base : Path) (rest : list string) : Exc World unit :=
  match rest with
  | [] => mret tt
  | n :: rest' =>
      let q := (base ++ [n])%list in
      λ w, if is_dir w q then mkdir_from q rest' w
           else match nodes w !! q with
                | Some _ =>
                    (Raise (match rest' with
                            | [] => eexist q
                            | _ => enotdir (q ++ rest')
                            end), w)
                | None =>
                    match fault w OpMkdir q with
                    | Some err => (Raise err, w)
                    | None => mkdir_from q rest' (set_nodes w (<[q := Dir]> (nodes w)))
                    end
                end
  end.

Definition mkdir_parents (p : Path) : Exc World unit :=
  mkdir_from (take (length p - length (tail_parts p)) p) (tail_parts p).

(** [repr(p)]. *)
Definition path_repr (p : Path) : string := "PosixPath('" +:+ path_str p +:+ "')".

(** The text of [shutil.SameFileError], which names its two arguments by
    their [repr]: the source is a path; the destination is a path too, or,
    when [copy2] has put the name of the source after a directory with
    [os.path.join], a text. *)
Definition esame (src dst : Path) (into : bool) : string :=
  path_repr src +:+ " and "
  +:+ (if into
       then "'" +:+ match dst with
                    | [] => "./" +:+ path_name src
                    | _ => path_str (dst ++ [path_name src])
                    end +:+ "'"
       else path_repr dst)
  +:+ " are the same file".

(** [shutil.copy2(src, dst)]: a destination that is a directory receives the
    copy under the source's base name; the source must be a file, the
    destination another path in an existing directory.  The copy has the
    bytes of the source. *)
Definition copy2 (src dst : Path) : Exc World unit :=
  λ w, match fault w OpCopy dst with
       | Some err => (Raise err, w)
       | None =>
           let dst' := if is_dir w dst then (dst ++ [path_name src])%list else dst in
           if bool_decide (dst' = src) then (Raise (esame src dst (is_dir w dst)), w)
           else if is_dir w src then (Raise (eisdir src), w)
           else match nodes w !! src with
                | Some (File c) =>
                    if is_dir w dst' then (Raise (eisdir dst'), w)
                    else if is_dir w (parent dst')
                    then (Ok tt, set_nodes w (<[dst' := File c]> (nodes w)))
                    else (Raise (enoent dst'), w)
                | _ => (Raise (enoent src), w)
                end
       end.

(** [p.write_text(data, encoding="utf-8")]. *)
Definition write_text (p : Path) (data : string) : Exc World unit :=
  λ w, match fault w OpWrite p with
       | Some err => (Raise err, w)
       | None =>
           if is_dir w p then (Raise (eisdir p), w)
           else if is_dir w (parent p)
           then (Ok tt, set_nodes w (<[p := File data]> (nodes w)))
           else (Raise (enoent p), w)
       end.

(** [src.replace(dst)] for a source that is a file: the destination takes
    the source's content in one step and the source name disappears.  The
    script only renames the temporary file it has just written; renaming a
    directory is reported as an error here. *)
Definition replace (src dst : Path) : Exc World unit :=
  λ w, match fault w OpReplace dst with
       | Some err => (Raise err, w)
       | None =>
           match nodes w !! src with
           | Some (File c) =>
               if is_dir w dst then (Raise (eisdir dst), w)
               else if is_dir w (parent dst)
               then (Ok tt, set_nodes w (<[dst := File c]> (delete src (nodes w))))
               else (Raise (enoent dst), w)
           | Some Dir => (Raise (eisdir src), w)
           | None => (Raise (enoent src), w)
           end
       end.

(** ** [should_include_todos] *)

Definition should_include_todos (mode : string) (todos_path : Path) (w : World) : bool :=
  if bool_decide (mode = "always") then true
  else if bool_decide (mode = "never") then false
  else exists_ w todos_path.

(** ** The plan *)

Record WorkspacePlan : Type := {
  path : Path;
  user_id : string;
  workspace_id : string;
  name : string;
  changed : bool;
  skipped : bool;
  reason : string;
  before_mode : option string;
  before_extensions : list string;
  after_mode : string;
  after_extensions : list string;
  error : option string;
}.

(** ** The library functions the script calls on JSON text *)

(** [json.loads] on the text of a file (a value, or the text of the
    exception), [json.dumps(v, indent=2)], and [repr] of a decoded value.
    The script is verified for every implementation of the three. *)
Class Runtime : Type := {
  json_loads : string → result Json;
  json_dumps : Json → string;
  py_repr : Json → string;
}.

(** [str(v)]: a [str] is itself, any other value is its [repr]. *)
Definition py_str `{Runtime} (v : Json) : string :=
  match v with
  | JString s => s
  | _ => py_repr v
  end.

(** [x in l] for a list of strings. *)
Definition contains (l : list string) (x : string) : bool := bool_decide (x ∈ l).

Section Migration.
Context `{RT : Runtime}.

(** ** [build_plan] *)

(** [json.loads(path.read_text(encoding="utf-8"))] *)
Definition load_json (p : Path) : Exc World Json :=
  text ← read_text p; lift (json_loads text).

Definition build_plan (path : Path) (include_todos force : bool) (w : World)
  : WorkspacePlan :=
  let rel_parts := path in
  let user_id :=
    if (2 <=? length rel_parts)%nat
    then nth (length rel_parts - 2) rel_parts "unknown"
    else "unknown" in
  let workspace_id := stem path in
  match load_json path w with
  | (Raise err, _) =>
      {| path := path; user_id := user_id; workspace_id := workspace_id;
         name := workspace_id; changed := false; skipped := true;
         reason := "parse-error"; before_mode := None; before_extensions := [];
         after_mode := "explicit"; after_extensions := [];
         error := Some err |}
  | (Ok (JDict data), _) =>
      let name :=
        if truthy (dict_get data "name") then py_str (dict_get data "name")
        else workspace_id in
      let before_mode :=
        match dict_get data "extensionMode" with
        | JString s => Some s
        | _ => None
        end in
      let before_extensions := normalize_extensions (dict_get data "extensions") in
      if bool_decide (before_mode = Some "explicit") && negb force then
        {| path := path; user_id := user_id; workspace_id := workspace_id;
           name := name; changed := false; skipped := true;
           reason := "already-explicit"; before_mode := before_mode;
           before_extensions := before_extensions;
           after_mode := "explicit"; after_extensions := before_extensions;
           error := None |}
      else
        let after0 := if force then before_extensions else [] in
        let after1 :=
          if truthy (dict_get data "memoryEnabled") && negb (contains after0 "memory")
          then (after0 ++ ["memory"])%list else after0 in
        let after2 :=
          if include_todos && negb (contains after1 "todos")
          then (after1 ++ ["todos"])%list else after1 in
        let changed :=
          negb (bool_decide (before_mode = Some "explicit"))
          || negb (bool_decide (before_extensions = after2)) in
        {| path := path; user_id := user_id; workspace_id := workspace_id;
           name := name; changed := changed; skipped := false;
           reason := "migrate"; before_mode := before_mode;
           before_extensions := before_extensions;
           after_mode := "explicit"; after_extensions := after2;
           error := None |}
  | (Ok _, _) =>
      {| path := path; user_id := user_id; workspace_id := workspace_id;
         name := workspace_id; changed := false; skipped := true;
         reason := "invalid-json-root"; before_mode := None;
         before_extensions := [];
         after_mode := "explicit"; after_extensions := [];
         error := Some "workspace file root must be a JSON object" |}
  end.

(** ** [apply_plan] *)

(** The body of the [try] block for one plan. *)
Definition apply_one (plan : WorkspacePlan) (workspaces_dir backup_dir : Path)
  : Exc World unit :=
  raw ← load_json (path plan);
  raw ← match raw with
        | JDict d => mret d
        | _ => raise "workspace root is not a JSON object"
        end;
  rel_path ← lift (relative_to (path plan) workspaces_dir);
  let backup_path := joinpath backup_dir rel_path in
  mkdir_parents (parent backup_path);;
  copy2 (path plan) backup_path;;
  let raw := dict_set raw "extensionMode" (JString (after_mode plan)) in
  let raw := dict_set raw "extensions" (JList (JString <$> after_extensions plan)) in
  let serialized := json_dumps (JDict raw) +:+ String "010" "" in
  tmp_path ← lift (with_tmp_suffix (path plan));
  write_text tmp_path serialized;;
  replace tmp_path (path plan).

Definition error_line (plan : WorkspacePlan) (err : string) : string :=
  "[error] failed to update " +:+ path_str (path plan) +:+ ": " +:+ err.

(** The loop of [apply_plan], with its two counters. *)
Fixpoint apply_loop (plans : list WorkspacePlan) (workspaces_dir backup_dir : Path)
  (n_changed n_failed : nat) (w : World) : (nat * nat) * World :=
  match plans with
  | [] => ((n_changed, n_failed), w)
  | plan :: rest =>
      if negb (changed plan) || skipped plan
      then apply_loop rest workspaces_dir backup_dir n_changed n_failed w
      else
        match apply_one plan workspaces_dir backup_dir w with
        | (Ok _, w') =>
            apply_loop rest workspaces_dir backup_dir (n_changed + 1) n_failed w'
        | (Raise err, w') =>
            apply_loop rest workspaces_dir backup_dir n_changed (n_failed + 1)
              (eprint (error_line plan err) w')
        end
  end.

Definition apply_plan (plans : list WorkspacePlan) (workspaces_dir backup_dir : Path)
  (w : World) : (nat * nat) * World :=
  apply_loop plans workspaces_dir backup_dir 0 0 w.

End Migration.

(** Faults and standard error are the same in both worlds. *)
Definition same_env (w w' : World) : Prop :=
  fault w' = fault w ∧ stderr w' = stderr w.

(** The plans that [apply_plan] works on: changed and not skipped. *)
Definition eligible (plan : WorkspacePlan) : bool :=
  changed plan && negb (skipped plan).


(** ** The outcomes of a load that [build_plan] reports as errors *)

Definition is_dict (v : Json) : bool :=
  match v with JDict _ => true | _ => false end.

(** [load_failure r code msg]: the load [r] failed, with the reason code and
    the message of the specification: an exception while reading or
    decoding is a "parse-error" with the text of the exception, a decoded
    value that is not an object is an "invalid-json-root". *)
Inductive load_failure : result Json → string → string → Prop :=
  | load_parse_error err :
      load_failure (Raise err) "parse-error" err
  | load_invalid_root v :
      is_dict v = false →
      load_failure (Ok v) "invalid-json-root" "workspace file root must be a JSON object".

(** ** A runtime and a file system for the examples *)

(** The double quote character. *)
Definition dq : string := String "034" "".

Definition quoted (s : string) : string := dq +:+ s +:+ dq.

(** The documents of the examples: a legacy file, a migrated file, a legacy
    file whose flag is a string, a file that is not JSON and a file whose
    root is a list. *)
Definition legacy_text : string := "{" +:+ quoted "memoryEnabled" +:+ ": true}".
Definition explicit_text : string :=
  "{" +:+ quoted "extensionMode" +:+ ": " +:+ quoted "explicit" +:+ ", "
  +:+ quoted "extensions" +:+ ": [" +:+ quoted "x" +:+ "]}".
Definition stringly_text : string :=
  "{" +:+ quoted "memoryEnabled" +:+ ": " +:+ quoted "yes" +:+ "}".
Definition broken_text : string := "{not json".
Definition array_text : string := "[1]".

Definition legacy_data : Dict := [("memoryEnabled", JBool true)].
Definition stringly_data : Dict := [("memoryEnabled", JString "yes")].
Definition explicit_data : Dict :=
  [("extensionMode", JString "explicit"); ("extensions", JList [JString "x"])].

(** A decoder that knows the documents of the examples. *)
Definition example_loads (text : string) : result Json :=
  if bool_decide (text = legacy_text) then Ok (JDict legacy_data)
  else if bool_decide (text = explicit_text) then Ok (JDict explicit_data)
  else if bool_decide (text = stringly_text) then Ok (JDict stringly_data)
  else if bool_decide (text = array_text) then Ok (JList [JInt 1])
  else Raise "Expecting property name enclosed in double quotes: line 1 column 2 (char 1)".

(** A printer on one line; strings are not escaped and a float is printed
    by its class.  It serves the examples only. *)
Fixpoint example_dumps (v : Json) : string :=
  match v with
  | JNull => "null"
  | JBool true => "true"
  | JBool false => "false"
  | JInt n => pretty n
  | JFloat (S754_zero _) => "0.0"
  | JFloat S754_nan => "NaN"
  | JFloat (S754_infinity false) => "Infinity"
  | JFloat (S754_infinity true) => "-Infinity"
  | JFloat (S754_finite s m e) =>
      (if s then "-" else "") +:+ pretty (Z.pos m) +:+ "p" +:+ pretty e
  | JString s => quoted s
  | JList items =>
      "[" +:+ (fix go (l : list Json) : string :=
                 match l with
                 | [] => ""
                 | x :: l' =>
                     example_dumps x +:+ match l' with [] => "" | _ => ", " +:+ go l' end
                 end) items +:+ "]"
  | JDict fields =>
      "{" +:+ (fix go (l : Dict) : string :=
                 match l with
                 | [] => ""
                 | (k, x) :: l' =>
                     quoted k +:+ ": " +:+ example_dumps x
                     +:+ match l' with [] => "" | _ => ", " +:+ go l' end
                 end) fields +:+ "}"
  end.

Definition example_runtime : Runtime :=
  {| json_loads := example_loads; json_dumps := example_dumps;
     py_repr := example_dumps |}.

Definition ws_dir : Path := ["/"; "w"].
Definition backup_root : Path := ["/"; "b"].
Definition legacy_path : Path := ["/"; "w"; "u"; "legacy.json"].
Definition explicit_path : Path := ["/"; "w"; "u"; "explicit.json"].
Definition stringly_path : Path := ["/"; "w"; "u"; "stringly.json"].
Definition broken_path : Path := ["/"; "w"; "u"; "broken.json"].
Definition array_path : Path := ["/"; "w"; "u"; "array.json"].

Definition no_fault : Op → Path → option string := λ _ _, None.

(** A workspace root with one user and five workspace files, and an empty
    backup root. *)
Definition example_world : World :=
  {| nodes := list_to_map
       [(["/"; "w"], Dir); (["/"; "w"; "u"], Dir); (["/"; "b"], Dir);
        (legacy_path, File legacy_text); (explicit_path, File explicit_text);
        (stringly_path, File stringly_text);
        (broken_path, File broken_text); (array_path, File array_text)];
     fault := no_fault;
     stderr := [] |}.


(** The same, where the legacy file cannot be replaced. *)
Definition readonly_world : World :=
  {| nodes := nodes example_world;
     fault := λ op p,
       if bool_decide (p = legacy_path) then
         match op with
         | OpReplace => Some ("[Errno 13] Permission denied: '/w/u/legacy.json.tmp' -> '/w/u/legacy.json'")
         | _ => None
         end
       else None;
     stderr := [] |}.

(** ** Extension sets *)

(** The invariant of an extension list: no duplicate, no blank name, every
    name trimmed. *)
Definition canonical (l : list string) : Prop :=
  NoDup l ∧ Forall (λ x, x ≠ "" ∧ strip x = x) l.

(** ** Workspace discovery *)

(** [s.endswith(suffix)]. *)
Fixpoint ends_with (suffix s : string) : bool :=
  bool_decide (s = suffix)
  || match s with
     | EmptyString => false
     | String _ s' => ends_with suffix s'
     end.

(** The order of [sorted] on paths: part by part, a part by the code points
    of its characters, a proper prefix first. *)
Fixpoint path_leb (p q : Path) : bool :=
  match p, q with
  | [], _ => true
  | _ :: _, [] => false
  | x :: p', y :: q' => if bool_decide (x = y) then path_leb p' q' else String.leb x y
  end.

Definition path_le (p q : Path) : Prop := path_leb p q = true.

#[global] Instance path_le_dec : RelDecision path_le :=
  λ p q, decide (path_leb p q = true).

(** [sorted(paths)]. *)
Definition sorted_paths (l : list Path) : list Path := merge_sort path_le l.

(** The entries of the directory [d], in the order the system lists them. *)
Definition children (w : World) (d : Path) : list Path :=
  filter (λ p, length p = S (length d) ∧ d `prefix_of` p) (map_to_list (nodes w)).*1.

(** [d.iterdir()], consumed: listing needs a directory that can be read. *)
Definition iterdir (d : Path) (w : World) : result (list Path) :=
  match fault w OpRead d with
  | Some err => Raise err
  | None =>
      if is_dir w d then Ok (children w d)
      else if exists_ w d then Raise (enotdir d) else Raise (enoent d)
  end.

(** [d.glob("*.json")], consumed: the entries whose name ends with ".json"
    (files and directories, hidden or not); a directory that cannot be
    listed gives nothing. *)
Definition glob_json (d : Path) (w : World) : list Path :=
  match fault w OpRead d with
  | Some _ => []
  | None =>
      if is_dir w d
      then filter (λ p, ends_with ".json" (path_name p) = true) (children w d)
      else []
  end.

(** [s[:1] == "/"] and [s[1:]]. *)
Definition starts_with_slash (s : string) : bool :=
  match s with
  | String c _ => bool_decide (c = "/"%char)
  | EmptyString => false
  end.

Definition str_tail (s : string) : string :=
  match s with
  | String _ s' => s'
  | EmptyString => ""
  end.

(** [posixpath.splitroot]: the root of a path text and what follows it.
    Exactly two leading slashes are a root of their own. *)
Definition splitroot (p : string) : string * string :=
  if negb (starts_with_slash p) then ("", p)
  else if negb (starts_with_slash (str_tail p))
          || starts_with_slash (str_tail (str_tail p))
       then ("/", str_tail p)
       else ("//", str_tail (str_tail p)).

(** [s.split("/")]. *)
Fixpoint split_slash (s : string) : list string :=
  match s with
  | EmptyString => [""]
  | String c s' =>
      if bool_decide (c = "/"%char) then "" :: split_slash s'
      else match split_slash s' with
           | x :: l => String c x :: l
           | [] => [String c ""]
           end
  end.

(** The parts of a text without root: its components, the empty ones and
    ["."] left out; [".."] is kept. *)
Definition parse_parts (rel : string) : list string :=
  filter (λ x, x ≠ "" ∧ x ≠ ".") (split_slash rel).

(** [a / key] for a text [key]: [posixpath.join] and the parsing of the
    result.  A key with a root replaces [a]; otherwise its parts are added
    to those of [a]. *)
Definition truediv (a : Path) (key : string) : Path :=
  let '(root, rel) := splitroot key in
  if bool_decide (root = "") then a ++ parse_parts rel else root :: parse_parts rel.

(** The user ids whose directory the system finds part by part, as the
    file system of this model does: no [".."] for the system to resolve,
    and not the root ["//"], which the system reads as ["/"]. *)
Definition plain_id (user_id : string) : Prop :=
  (splitroot user_id).1 ≠ "//" ∧ ".." ∉ parse_parts (splitroot user_id).2.

(** [discover_workspace_files]. *)
Definition discover_workspace_files (workspaces_dir : Path) (user_ids : list string)
  (w : World) : result (list Path) :=
  if negb (exists_ w workspaces_dir) then Ok []
  else
    match user_ids with
    | _ :: _ =>
        Ok (concat
              ((λ user_id,
                  let user_dir := truediv workspaces_dir user_id in
                  if negb (exists_ w user_dir) then []
                  else sorted_paths (glob_json user_dir w)) <$> user_ids))
    | [] =>
        match iterdir workspaces_dir w with
        | Raise err => Raise err
        | Ok entries =>
            Ok (concat
                  ((λ user_dir,
                      if negb (is_dir w user_dir) then []
                      else sorted_paths (glob_json user_dir w))
                     <$> sorted_paths entries))
        end
    end.

(** ** The report *)

(** [if plan.error]: an error text that is not empty. *)
Definition has_error (plan : WorkspacePlan) : bool :=
  match error plan with
  | Some err => negb (bool_decide (err = ""))
  | None => false
  end.

(** [summarize]: total, changed, skipped, errors. *)
Definition summarize (plans : list WorkspacePlan) : nat * nat * nat * nat :=
  let total := length plans in
  let n_errors := length (filter (λ p, has_error p = true) plans) in
  let n_skipped :=
    length (filter (λ p, (skipped p && negb (has_error p)) = true) plans) in
  let n_changed :=
    length (filter (λ p, (changed p && negb (skipped p) && negb (has_error p)) = true)
              plans) in
  (total, n_changed, n_skipped, n_errors).

Definition nl : string := String "010" "".

Section Report.
Context `{RT : Runtime}.

(** [repr] of a [str | None] and [str] of a list of [str]. *)
Definition repr_mode (m : option string) : string :=
  match m with
  | Some s => py_repr (JString s)
  | None => py_repr JNull
  end.

Definition str_list (l : list string) : string := py_repr (JList (JString <$> l)).

(** The text printed for one plan. *)
Definition print_one (plan : WorkspacePlan) : string :=
  let header :=
    "- " +:+ user_id plan +:+ "/" +:+ workspace_id plan +:+ " (" +:+ name plan +:+ ")" in
  if has_error plan then
    header +:+ "  [skip: " +:+ reason plan +:+ "]" +:+ nl +:+ "    error: "
    +:+ default "" (error plan)
  else if skipped plan then
    header +:+ "  [skip: " +:+ reason plan +:+ "]"
  else if changed plan then
    header +:+ nl
    +:+ "    mode: " +:+ repr_mode (before_mode plan) +:+ " -> "
    +:+ py_repr (JString (after_mode plan)) +:+ nl
    +:+ "    extensions: " +:+ str_list (before_extensions plan) +:+ " -> "
    +:+ str_list (after_extensions plan)
  else
    header +:+ "  [no-op]" +:+ nl
    +:+ "    mode: " +:+ repr_mode (before_mode plan) +:+ nl
    +:+ "    extensions: " +:+ str_list (before_extensions plan).

(** [print_plan]: the texts given to [print], in order. *)
Definition print_plan (plans : list WorkspacePlan) (dry_run : bool) : list string :=
  let mode := if dry_run then "DRY RUN" else "APPLY" in
  (nl +:+ "== Workspace Extension Migration (" +:+ mode +:+ ") ==")
  :: (print_one <$> plans).

End Report.

(** ** The entry point *)

(** The parsed command line. *)
Record Args : Type := {
  args_workspaces_dir : Path;
  args_user_id : list string;
  args_include_todos : string;
  args_force : bool;
  args_apply : bool;
  args_backup_dir : option Path;
}.

(** What the process takes from its environment: [p.expanduser().resolve()],
    the default path of the todos extension, and the time stamp
    [datetime.now().strftime("%Y%m%d-%H%M%S")]. *)
Record Env : Type := {
  resolve : Path → Path;
  default_todos_path : Path;
  now_stamp : string;
}.

Definition py_bool (b : bool) : string := if b then "True" else "False".

Section Main.
Context `{RT : Runtime}.

(** The exit code when nothing was written. *)
Definition exit_code (errors : nat) : nat := if (errors =? 0)%nat then 0 else 2.

(** [main]: the exit code (or the exception that ends the process), the
    texts printed to standard output, and the world it leaves. *)
Definition main (env : Env) (args : Args) (w : World)
  : result nat * list string * World :=
  let workspaces_dir := resolve env (args_workspaces_dir args) in
  let todos_path := resolve env (default_todos_path env) in
  let include_todos := should_include_todos (args_include_todos args) todos_path w in
  match discover_workspace_files workspaces_dir (args_user_id args) w with
  | Raise err => (Raise err, [], w)
  | Ok [] =>
      (Ok 0, ["No workspace files found under: " +:+ path_str workspaces_dir], w)
  | Ok workspace_files =>
      let plans :=
        (λ p, build_plan p include_todos (args_force args) w) <$> workspace_files in
      let '(total, changed, skipped, errors) := summarize plans in
      let out :=
        print_plan plans (negb (args_apply args))
        ++ [nl +:+ "Summary: total=" +:+ pretty total +:+ ", migrate=" +:+ pretty changed
            +:+ ", skipped=" +:+ pretty skipped +:+ ", errors=" +:+ pretty errors
            +:+ ", include_todos=" +:+ py_bool include_todos] in
      if negb (args_apply args) then
        (Ok (exit_code errors),
         out ++ [nl +:+ "Dry run only. Re-run with --apply to write changes."], w)
      else if (changed =? 0)%nat then
        (Ok (exit_code errors), out ++ [nl +:+ "No changes to apply."], w)
      else
        let backup_dir :=
          match args_backup_dir args with
          | Some b => b
          | None =>
              joinpath (parent workspaces_dir) ["workspaces.backup-" +:+ now_stamp env]
          end in
        let backup_dir := resolve env backup_dir in
        match mkdir_parents backup_dir w with
        | (Raise err, w1) => (Raise err, out, w1)
        | (Ok _, w1) =>
            let '((applied, failed), w2) :=
              apply_plan plans workspaces_dir backup_dir w1 in
            let out :=
              out ++ [nl +:+ "Applied: " +:+ pretty applied +:+ " workspace file(s)";
                      "Backups: " +:+ path_str backup_dir] in
            if (0 <? failed)%nat then
              (Ok 2, out, eprint ("Failures: " +:+ pretty failed) w2)
            else if (0 <? errors)%nat then (Ok 2, out, w2)
            else (Ok 0, out, w2)
        end
  end.

End Main.

(** An environment for the examples: paths are already resolved. *)
Definition example_env : Env :=
  {| resolve := λ p, p;
     default_todos_path := ["/"; "home"; ".pi"; "agent"; "extensions"; "todos.ts"];
     now_stamp := "20260101-000000" |}.

(** A runtime for the examples that also decodes the legacy document once
    migrated. *)
Definition migrated_legacy_data : Dict :=
  [("memoryEnabled", JBool true); ("extensionMode", JString "explicit");
   ("extensions", JList [JString "memory"; JString "todos"])].

Definition reloading_loads (text : string) : result Json :=
  if bool_decide (text = example_dumps (JDict migrated_legacy_data) +:+ nl)
  then Ok (JDict migrated_legacy_data)
  else example_loads text.

Definition reloading_runtime : Runtime :=
  {| json_loads := reloading_loads; json_dumps := example_dumps;
     py_repr := example_dumps |}.

(** * Properties *)

(** Case analysis along the tests of an operation. *)
Ltac op_cases := cbv zeta; repeat case_match; simplify_eq; try done.

(** ** The normalizer *)

Section Strip.
Implicit Types (s pre post : string) (c : ascii).

Lemma append_cons c s post : String c s +:+ post = String c (s +:+ post).
Proof. reflexivity. Qed.

Lemma append_empty post : "" +:+ post = post.
Proof. reflexivity. Qed.

Lemma lstrip_spec s :
  ∃ pre, s = pre +:+ lstrip s ∧ all_space pre = true
         ∧ ∀ c, first_char (lstrip s) = Some c → isspace c = false.
Proof.
  induction s as [|c s (pre & Hs & Hpre & Hfirst)]; simpl.
  - by exists "".
  - destruct (isspace c) eqn:Hc.
    + exists (String c pre). simpl. rewrite Hc, Hpre, append_cons.
      split; [congruence|done].
    + exists "". simpl. split; [done|]. split; [done|]. by intros ? [= <-].
Qed.

Lemma rstrip_spec s :
  ∃ post, s = rstrip s +:+ post ∧ all_space post = true
          ∧ (∀ c, last_char (rstrip s) = Some c → isspace c = false)
          ∧ (∀ c, first_char s = Some c → isspace c = false →
                  first_char (rstrip s) = Some c).
Proof.
  induction s as [|c s (post & Hs & Hpost & Hlast & _)]; simpl.
  - by exists "".
  - destruct (rstrip s) as [|c' r] eqn:Hr.
    + destruct (isspace c) eqn:Hc.
      * exists (String c post). rewrite append_empty in *. simpl in *.
        rewrite Hc, Hpost.
        split; [congruence|]. split; [done|]. split; [done|].
        intros ? [= <-] ?. congruence.
      * exists post. rewrite append_cons, append_empty in *. simpl in *.
        split; [congruence|]. split; [done|].
        split; by intros ? [= <-].
    + exists post. rewrite !append_cons in *.
      split; [congruence|]. split; [done|].
      split; [|by intros ? [= <-]]. exact Hlast.
Qed.

(** [strip] cuts a whitespace prefix and a whitespace suffix off the
    string, and what is left neither starts nor ends with whitespace. *)
Lemma strip_spec s :
  ∃ pre post,
    s = pre +:+ strip s +:+ post
    ∧ all_space pre = true ∧ all_space post = true
    ∧ (∀ c, first_char (strip s) = Some c → isspace c = false)
    ∧ (∀ c, last_char (strip s) = Some c → isspace c = false).
Proof.
  unfold strip.
  destruct (lstrip_spec s) as (pre & Hs & Hpre & Hfirst).
  destruct (rstrip_spec (lstrip s)) as (post & Hl & Hpost & Hlast & Hkeep).
  exists pre, post. split; [by rewrite <- Hl|]. split; [done|]. split; [done|].
  split; [|done].
  intros c Hc. destruct (lstrip s) as [|c0 t] eqn:Ht; [done|].
  specialize (Hfirst c0 eq_refl). specialize (Hkeep c0 eq_refl Hfirst).
  rewrite Hkeep in Hc. by injection Hc as <-.
Qed.

End Strip.

Section Normalizer.
Implicit Types (l out : list string) (items : list Json) (seen : gset string).

Lemma first_occurrences_elem l x : x ∈ first_occurrences l ↔ x ∈ l.
Proof.
  induction l as [|y l IH]; simpl; [done|].
  rewrite !elem_of_cons, list_elem_of_filter, IH.
  destruct (decide (x = y)); tauto.
Qed.

Lemma first_occurrences_NoDup l : NoDup (first_occurrences l).
Proof.
  induction l as [|y l IH]; simpl; [constructor|].
  apply NoDup_cons. split.
  - rewrite list_elem_of_filter. by intros [Hne _].
  - by apply NoDup_filter.
Qed.

(** The result lists the names in the order of the input. *)
Lemma first_occurrences_sublist l : first_occurrences l `sublist_of` l.
Proof.
  induction l as [|y l IH]; simpl; [done|].
  apply sublist_skip. etrans; [apply sublist_filter|done].
Qed.

Lemma filter_all (P : string → Prop) `{!∀ x, Decision (P x)} l :
  (∀ x, x ∈ l → P x) → filter P l = l.
Proof.
  induction l as [|y l IH]; intros Hall; [done|].
  rewrite filter_cons_True by (apply Hall; left).
  f_equal. apply IH. intros x Hx. apply Hall. by right.
Qed.

Lemma trimmed_names_elem items x :
  x ∈ trimmed_names items ↔ x ≠ "" ∧ ∃ s, JString s ∈ items ∧ strip s = x.
Proof.
  induction items as [|item items IH]; simpl.
  - split; [by intros ?%elem_of_nil|]. by intros (_ & s & ?%elem_of_nil & _).
  - destruct item as [| | | |s| |];
      try (rewrite IH; split; intros (? & s' & Hin & ?); split; try done;
           exists s'; split; try done;
           [by right | by apply elem_of_cons in Hin as [?|?]]).
    case_bool_decide as Hs.
    + rewrite IH. split; intros (Hx & s' & Hin & Hs'); (split; [done|]).
      * exists s'. split; [by right|done].
      * apply elem_of_cons in Hin as [Heq|Hin]; [|by exists s'].
        congruence.
    + rewrite elem_of_cons, IH. split.
      * intros [->|(Hx & s' & Hin & Hs')].
        -- split; [done|]. exists s. split; [left|done].
        -- split; [done|]. exists s'. split; [by right|done].
      * intros (Hx & s' & Hin & Hs').
        apply elem_of_cons in Hin as [Heq|Hin].
        -- left. congruence.
        -- right. split; [done|]. by exists s'.
Qed.

(** The loop, started with [seen] the set of the names of [out], appends to
    [out] the first occurrences of the remaining names that [out] lacks. *)
Lemma normalize_loop_spec items seen out :
  (∀ x, x ∈ seen ↔ x ∈ out) →
  normalize_loop items seen out
  = out ++ filter (λ y, y ∉ out) (first_occurrences (trimmed_names items)).
Proof.
  revert seen out. induction items as [|item items IH]; intros seen out Hseen.
  - simpl. by rewrite app_nil_r.
  - destruct item as [| | | |s| |]; simpl; try by apply IH.
    case_bool_decide as Hblank; [by apply IH|].
    case_bool_decide as Hdup.
    + rewrite (IH _ _ Hseen). simpl.
      rewrite filter_cons_False by (intros Hn; apply Hn, Hseen, Hdup).
      rewrite list_filter_filter_l; [done|].
      intros x Hx ->. apply Hx, Hseen, Hdup.
    + rewrite IH.
      2:{ intros x. rewrite elem_of_union, elem_of_singleton, elem_of_app,
            list_elem_of_singleton, Hseen. tauto. }
      simpl. rewrite filter_cons_True by (by rewrite <- Hseen).
      rewrite <- app_assoc. simpl. do 2 f_equal.
      rewrite list_filter_filter. apply list_filter_iff.
      intros x. rewrite not_elem_of_app, list_elem_of_singleton. tauto.
Qed.

End Normalizer.

(** C8.  [normalize_extensions] is a total function: a value that is not a
    list gives the empty list; a list gives the trimmed, non-blank forms of
    its string items, each kept once, at its first occurrence and in the
    order of the input (other items are dropped).  The result has no
    duplicate, and it holds exactly the non-empty trimmed forms of the
    string items.  The list of the specification normalizes to
    ["memory"; "todos"]. *)
Theorem normalize_extensions_spec :
  (∀ value,
     normalize_extensions value
     = match value with
       | JList items => first_occurrences (trimmed_names items)
       | _ => []
       end)
  ∧ (∀ value, NoDup (normalize_extensions value))
  ∧ (∀ items x,
       x ∈ normalize_extensions (JList items)
       ↔ x ≠ "" ∧ ∃ s, JString s ∈ items ∧ strip s = x)
  ∧ (∀ items,
       normalize_extensions (JList items) `sublist_of` trimmed_names items)
  ∧ normalize_extensions
      (JList [JString "memory"; JString " memory "; JString ""; JInt 5;
              JString "todos"; JString "memory"])
    = ["memory"; "todos"].
Proof.
  assert (Hspec : ∀ items,
    normalize_extensions (JList items) = first_occurrences (trimmed_names items)).
  { intros items. unfold normalize_extensions.
    rewrite normalize_loop_spec by (intros x; by rewrite elem_of_empty, elem_of_nil).
    simpl. apply filter_all. intros x _. apply not_elem_of_nil. }
  split; [|split; [|split; [|split]]].
  - intros []; first [apply Hspec | reflexivity].
  - intros []; try apply NoDup_nil_2. rewrite Hspec. apply first_occurrences_NoDup.
  - intros items x. by rewrite Hspec, first_occurrences_elem, trimmed_names_elem.
  - intros items. rewrite Hspec. apply first_occurrences_sublist.
  - by vm_compute.
Qed.

(** ** The todos inclusion policy *)

(** C9.  [should_include_todos] is true for the mode "always" and false for
    the mode "never", whatever the state of the probe file; for the mode
    "auto" it is true if and only if the probe file exists in the file
    system at the call, that is, if and only if the probe path is the root
    or has a node.  For every mode string the result is true exactly when
    the mode is "always", or is not "never" and the probe file exists. *)
Theorem should_include_todos_spec :
  ∀ (todos_path : Path) (w : World),
    should_include_todos "always" todos_path w = true
    ∧ should_include_todos "never" todos_path w = false
    ∧ (should_include_todos "auto" todos_path w = true ↔ exists_ w todos_path = true)
    ∧ (exists_ w todos_path = true
       ↔ tail_parts todos_path = [] ∨ is_Some (nodes w !! todos_path))
    ∧ (∀ mode : string,
         should_include_todos mode todos_path w = true
         ↔ mode = "always" ∨ (mode ≠ "never" ∧ exists_ w todos_path = true)).
Proof.
  intros todos_path w. split; [done|]. split; [done|]. split; [done|]. split.
  - unfold exists_, is_dir. rewrite orb_true_iff, bool_decide_eq_true.
    destruct (tail_parts todos_path); [by split; [left|left]|].
    split.
    + intros [Hdir|Hsome]; right; [|done].
      by destruct (nodes w !! todos_path) as [[]|].
    + intros [?|Hsome]; [done|]. by right.
  - intros mode. unfold should_include_todos.
    case_bool_decide as Halways; [by split; [left|]|].
    case_bool_decide as Hnever.
    + split; [done|]. by intros [?|[? _]].
    + split; [by right|]. by intros [?|[_ ?]].
Qed.

(** ** The plan builder *)

Section PlanBuilder.
Context `{RT : Runtime}.
Implicit Types (path : Path) (w : World) (data : Dict) (plan : WorkspacePlan).

(** Reading and decoding a file leaves the file system as it was. *)
Lemma load_json_world path w : (load_json path w).2 = w.
Proof.
  unfold load_json, mbind, Exc_bind, read_text, lift.
  destruct (fault w OpRead path); [done|].
  destruct (is_dir w path); [done|].
  by destruct (nodes w !! path) as [[]|].
Qed.

(** A plan that is skipped, or not changed, is passed over by [apply_plan]. *)
Lemma apply_loop_skip plan rest wd bd c f w :
  changed plan = false ∨ skipped plan = true →
  apply_loop (plan :: rest) wd bd c f w = apply_loop rest wd bd c f w.
Proof. simpl. by intros [-> | ->]; rewrite ?orb_true_r. Qed.

(** The three ways [build_plan] can go, after the outcome of the load. *)
Lemma build_plan_cases path include_todos force w :
  let plan := build_plan path include_todos force w in
  (∃ err, (load_json path w).1 = Raise err ∧ reason plan = "parse-error")
  ∨ (∃ v, (load_json path w).1 = Ok v ∧ (∀ data, v ≠ JDict data)
          ∧ reason plan = "invalid-json-root")
  ∨ (∃ data, (load_json path w).1 = Ok (JDict data)).
Proof.
  unfold build_plan. destruct (load_json path w) as [[v|err] w']; simpl.
  - destruct v; try (right; left; eexists; by repeat split).
    right; right. by eexists.
  - left. by eexists.
Qed.

End PlanBuilder.

(** C1.  A file that decodes to an object whose [extensionMode] is
    "explicit", planned without [force], gives a plan that is skipped with
    the reason "already-explicit" and not changed; its after state is its
    before state: the mode "explicit" and the normalized extensions of the
    file.  [apply_plan] passes such a plan over, so that planning and
    applying a migrated file again does nothing. *)
Theorem build_plan_already_explicit `{RT : Runtime} :
  ∀ (path : Path) (include_todos : bool) (w : World) (data : Dict),
    (load_json path w).1 = Ok (JDict data) →
    dict_get data "extensionMode" = JString "explicit" →
    let plan := build_plan path include_todos false w in
    skipped plan = true ∧ reason plan = "already-explicit" ∧ changed plan = false
    ∧ error plan = None
    ∧ before_mode plan = Some "explicit" ∧ after_mode plan = "explicit"
    ∧ before_extensions plan = normalize_extensions (dict_get data "extensions")
    ∧ after_extensions plan = before_extensions plan
    ∧ ∀ rest wd bd w', apply_plan (plan :: rest) wd bd w' = apply_plan rest wd bd w'.
Proof.
  intros path include_todos w data Hload Hmode plan.
  assert (Hplan : skipped plan = true ∧ reason plan = "already-explicit"
                  ∧ changed plan = false ∧ error plan = None
                  ∧ before_mode plan = Some "explicit" ∧ after_mode plan = "explicit"
                  ∧ before_extensions plan = normalize_extensions (dict_get data "extensions")
                  ∧ after_extensions plan = before_extensions plan).
  { subst plan. unfold build_plan.
    destruct (load_json path w) as [r w0]. simpl in Hload. subst r.
    rewrite Hmode. by rewrite bool_decide_eq_true_2. }
  destruct Hplan as (Hs & Hr & Hc & He & Hbm & Ham & Hbe & Hae).
  repeat split; try done.
  intros rest wd bd w'. unfold apply_plan. apply apply_loop_skip. by right.
Qed.

Lemma build_plan_already_explicit_witness :
  (load_json (RT:=example_runtime) explicit_path example_world).1
    = Ok (JDict explicit_data)
  ∧ dict_get explicit_data "extensionMode" = JString "explicit"
  ∧ let plan := build_plan (RT:=example_runtime) explicit_path true false example_world in
    skipped plan = true ∧ reason plan = "already-explicit" ∧ changed plan = false
    ∧ after_extensions plan = ["x"].
Proof.
  assert (Hload : (load_json (RT:=example_runtime) explicit_path example_world).1
                  = Ok (JDict explicit_data)) by (vm_compute; reflexivity).
  assert (Hmode : dict_get explicit_data "extensionMode" = JString "explicit")
    by reflexivity.
  split; [exact Hload|]. split; [exact Hmode|].
  destruct (build_plan_already_explicit (RT:=example_runtime)
              explicit_path true example_world explicit_data Hload Hmode)
    as (Hs & Hr & Hc & _ & _ & _ & Hbe & Hae & _).
  split; [exact Hs|]. split; [exact Hr|]. split; [exact Hc|].
  rewrite Hae, Hbe. reflexivity.
Defined.


(** The guarded [append] of the script, as a case on a proposition. *)
Lemma append_if_absent (cond : bool) (l : list string) (x : string) :
  (if cond && negb (contains l x) then l ++ [x] else l)
  = (if decide (cond = true ∧ x ∉ l) then l ++ [x] else l).
Proof.
  unfold contains.
  destruct (decide (cond = true ∧ x ∉ l)) as [[-> Hx]|Hno].
  - by rewrite bool_decide_eq_false_2.
  - destruct cond; [|done].
    rewrite bool_decide_eq_true_2; [done|].
    destruct (decide (x ∈ l)); [done|]. by destruct Hno.
Qed.

(** The plan of the migrate branch. *)
Lemma build_plan_not_skipped `{RT : Runtime} path include_todos force w :
  let plan := build_plan path include_todos force w in
  skipped plan = false →
  ∃ data,
    (load_json path w).1 = Ok (JDict data)
    ∧ before_extensions plan = normalize_extensions (dict_get data "extensions")
    ∧ let base := if force then before_extensions plan else [] in
      let with_memory :=
        if decide (truthy (dict_get data "memoryEnabled") = true ∧ "memory" ∉ base)
        then base ++ ["memory"] else base in
      after_extensions plan
      = if decide (include_todos = true ∧ "todos" ∉ with_memory)
        then with_memory ++ ["todos"] else with_memory.
Proof.
  intros plan Hskip. subst plan. unfold build_plan in *.
  destruct (load_json path w) as [[v|err] w0]; [|done].
  destruct v as [| | | | | |data]; try done.
  exists data. split; [done|]. simpl.
  destruct (bool_decide (_ = Some "explicit") && negb force) eqn:Hshort; [done|].
  simpl. split; [done|]. by rewrite !append_if_absent.
Qed.

(** C2.  For a plan that is not skipped the file decoded to an object, and
    the after extensions are computed in this order: start from the
    normalized extensions of the file under [force] and from the empty list
    otherwise; append "memory" if and only if [memoryEnabled] is true (as
    the code tests it, [bool(data.get("memoryEnabled"))], which for a
    boolean field is the field) and "memory" is not yet there; then append
    "todos" if and only if the inclusion boolean is true and "todos" is not
    yet there.  With [memoryEnabled] true, no prior extension and no todos
    inclusion the result is ["memory"]. *)
Theorem build_plan_after_extensions `{RT : Runtime} :
  ∀ (path : Path) (include_todos force : bool) (w : World),
    let plan := build_plan path include_todos force w in
    skipped plan = false →
    ∃ data,
      (load_json path w).1 = Ok (JDict data)
      ∧ let memory_enabled := truthy (dict_get data "memoryEnabled") in
        let base :=
          if force then normalize_extensions (dict_get data "extensions") else [] in
        let with_memory :=
          if decide (memory_enabled = true ∧ "memory" ∉ base)
          then base ++ ["memory"] else base in
        let with_todos :=
          if decide (include_todos = true ∧ "todos" ∉ with_memory)
          then with_memory ++ ["todos"] else with_memory in
        after_extensions plan = with_todos
        ∧ (∀ b, dict_get data "memoryEnabled" = JBool b → memory_enabled = b)
        ∧ (dict_get data "memoryEnabled" = JBool true →
           normalize_extensions (dict_get data "extensions") = [] →
           include_todos = false →
           after_extensions plan = ["memory"]).
Proof.
  intros path include_todos force w plan Hskip.
  destruct (build_plan_not_skipped path include_todos force w Hskip)
    as (data & Hload & Hbefore & Hafter).
  fold plan in Hbefore, Hafter. rewrite Hbefore in Hafter.
  exists data. split; [done|]. simpl. split; [done|]. split.
  - by intros b ->.
  - intros Hmem Hnone ->. rewrite Hafter, Hmem, Hnone. by destruct force.
Qed.

Lemma build_plan_after_extensions_witness :
  let plan := build_plan (RT:=example_runtime) legacy_path false false example_world in
  skipped plan = false ∧ after_extensions plan = ["memory"].
Proof.
  assert (Hskip : skipped (build_plan (RT:=example_runtime) legacy_path false false
                             example_world) = false) by (vm_compute; reflexivity).
  split; [exact Hskip|].
  destruct (build_plan_after_extensions (RT:=example_runtime)
              legacy_path false false example_world Hskip)
    as (data & Hload & _ & _ & Hmem).
  assert (data = legacy_data) as ->
    by (vm_compute in Hload; injection Hload as <-; reflexivity).
  apply Hmem; reflexivity.
Defined.

(** C3.  For a plan that is not skipped, [changed] is true if and only if
    the before mode is not "explicit" or the before and after extension
    lists differ as lists (in a member or in the order). *)
Theorem build_plan_changed_iff `{RT : Runtime} :
  ∀ (path : Path) (include_todos force : bool) (w : World),
    let plan := build_plan path include_todos force w in
    skipped plan = false →
    (changed plan = true
     ↔ before_mode plan ≠ Some "explicit"
       ∨ before_extensions plan ≠ after_extensions plan).
Proof.
  intros path include_todos force w plan Hskip. subst plan.
  unfold build_plan in *.
  destruct (load_json path w) as [[v|err] w0]; [|done].
  destruct v as [| | | | | |data]; try done.
  destruct (bool_decide (_ = Some "explicit") && negb force) eqn:Hshort; [done|].
  cbn [changed before_mode before_extensions after_extensions].
  rewrite orb_true_iff, !negb_true_iff, !bool_decide_eq_false. done.
Qed.

Lemma build_plan_changed_iff_witness :
  let plan := build_plan (RT:=example_runtime) explicit_path false true example_world in
  skipped plan = false
  ∧ changed plan = false
  ∧ ¬ (before_mode plan ≠ Some "explicit"
       ∨ before_extensions plan ≠ after_extensions plan).
Proof.
  assert (Hskip : skipped (build_plan (RT:=example_runtime) explicit_path false true
                             example_world) = false) by (vm_compute; reflexivity).
  split; [exact Hskip|]. split; [vm_compute; reflexivity|].
  intros Hor.
  apply (build_plan_changed_iff (RT:=example_runtime)
           explicit_path false true example_world Hskip) in Hor.
  vm_compute in Hor. discriminate Hor.
Defined.

(** ** The apply engine: the loop *)

Section ApplyLoop.
Context `{RT : Runtime}.
Implicit Types (plan : WorkspacePlan) (plans rest : list WorkspacePlan)
  (wd bd : Path) (w : World).

Lemma eligible_skip plan :
  eligible plan = false ↔ changed plan = false ∨ skipped plan = true.
Proof.
  unfold eligible.
  destruct (changed plan), (skipped plan); simpl; intuition congruence.
Qed.

(** The counters are only added to. *)
Lemma apply_loop_counters plans wd bd c f w :
  apply_loop plans wd bd c f w
  = let '((c', f'), w') := apply_loop plans wd bd 0 0 w in ((c + c', f + f'), w').
Proof.
  revert c f w. induction plans as [|plan rest IH]; intros c f w; simpl.
  - by rewrite !Nat.add_0_r.
  - destruct (negb (changed plan) || skipped plan); [apply IH|].
    destruct (apply_one plan wd bd w) as [[[]|err] w1].
    + rewrite IH, (IH (0 + 1)).
      destruct (apply_loop rest wd bd 0 0 w1) as [[c' f'] w'].
      f_equal. f_equal; lia.
    + rewrite IH, (IH 0 (0 + 1)).
      destruct (apply_loop rest wd bd 0 0 _) as [[c' f'] w'].
      f_equal. f_equal; lia.
Qed.

(** A batch in two parts: the second part runs from the world and the
    counters the first part leaves, whatever happened in the first. *)
Lemma apply_loop_app plans1 plans2 wd bd c f w :
  apply_loop (plans1 ++ plans2) wd bd c f w
  = let '((c1, f1), w1) := apply_loop plans1 wd bd c f w in
    apply_loop plans2 wd bd c1 f1 w1.
Proof.
  revert c f w. induction plans1 as [|plan rest IH]; intros c f w; simpl; [done|].
  destruct (negb (changed plan) || skipped plan); [apply IH|].
  destruct (apply_one plan wd bd w) as [[[]|err] w1]; apply IH.
Qed.

Lemma apply_plan_skip_inside pre plan post wd bd w :
  skipped plan = true →
  apply_plan (pre ++ plan :: post) wd bd w = apply_plan (pre ++ post) wd bd w.
Proof.
  intros Hskip. unfold apply_plan. rewrite !apply_loop_app.
  destruct (apply_loop pre wd bd 0 0 w) as [[c1 f1] w1].
  apply apply_loop_skip. by right.
Qed.

(** One turn of the loop on an eligible plan: success or exception, the
    rest of the batch is processed from the world the plan leaves. *)
Lemma apply_plan_cons_eligible plan rest wd bd w :
  eligible plan = true →
  apply_plan (plan :: rest) wd bd w
  = match apply_one plan wd bd w with
    | (Ok _, w1) =>
        let '((c, f), w2) := apply_plan rest wd bd w1 in ((S c, f), w2)
    | (Raise err, w1) =>
        let '((c, f), w2) := apply_plan rest wd bd (eprint (error_line plan err) w1) in
        ((c, S f), w2)
    end.
Proof.
  unfold eligible, apply_plan. intros [Hc Hs%negb_true_iff]%andb_true_iff.
  simpl. rewrite Hc, Hs. simpl.
  destruct (apply_one plan wd bd w) as [[[]|err] w1]; by rewrite apply_loop_counters.
Qed.

Lemma apply_plan_cons_skip plan rest wd bd w :
  eligible plan = false →
  apply_plan (plan :: rest) wd bd w = apply_plan rest wd bd w.
Proof. intros ?%eligible_skip. by apply apply_loop_skip. Qed.

End ApplyLoop.

(** ** The file system operations keep the environment *)

Section Environment.
Context `{RT : Runtime}.

Lemma same_env_refl w : same_env w w.
Proof. done. Qed.

Lemma same_env_trans w1 w2 w3 : same_env w1 w2 → same_env w2 w3 → same_env w1 w3.
Proof. intros [? ?] [? ?]. split; congruence. Qed.

Lemma bind_env {A B} (m : Exc World A) (k : A → Exc World B) w :
  same_env w (m w).2 →
  (∀ a w1, same_env w1 (k a w1).2) →
  same_env w ((m ≫= k) w).2.
Proof.
  intros Hm Hk. unfold mbind, Exc_bind.
  destruct (m w) as [[a|err] w1]; simpl in *; [|done].
  eapply same_env_trans; [exact Hm|apply Hk].
Qed.

Lemma read_text_env p w : same_env w (read_text p w).2.
Proof. unfold read_text. op_cases. Qed.

Lemma lift_env {A} (r : result A) w : same_env w (lift r w).2.
Proof. done. Qed.

Lemma load_json_env p w : same_env w (load_json p w).2.
Proof. rewrite load_json_world. done. Qed.

Lemma mkdir_from_env base rest w : same_env w (mkdir_from base rest w).2.
Proof.
  revert base w. induction rest as [|n rest IH]; intros base w; simpl; [done|].
  destruct (is_dir w (base ++ [n])); [apply IH|].
  destruct (nodes w !! (base ++ [n])); [done|].
  destruct (fault w OpMkdir (base ++ [n])); [done|].
  eapply same_env_trans; [|apply IH]. done.
Qed.

Lemma copy2_env src dst w : same_env w (copy2 src dst w).2.
Proof. unfold copy2. op_cases. Qed.

Lemma write_text_env p data w : same_env w (write_text p data w).2.
Proof. unfold write_text. op_cases. Qed.

Lemma replace_env src dst w : same_env w (replace src dst w).2.
Proof. unfold replace. op_cases. Qed.

(** Applying one plan writes nothing to standard error and leaves the
    faults of the environment as they are. *)
Lemma apply_one_env plan wd bd w : same_env w (apply_one plan wd bd w).2.
Proof.
  unfold apply_one.
  apply bind_env; [apply load_json_env|]. intros raw w1.
  apply bind_env; [destruct raw; apply same_env_refl|]. intros d w2.
  apply bind_env; [apply lift_env|]. intros rel w3.
  apply bind_env; [apply mkdir_from_env|]. intros _ w4.
  apply bind_env; [apply copy2_env|]. intros _ w5.
  apply bind_env; [apply lift_env|]. intros tmp w6.
  apply bind_env; [apply write_text_env|]. intros _ w7.
  apply replace_env.
Qed.

End Environment.

(** ** Paths *)

Section Paths.
Implicit Types (p wd bd rel : Path).

Lemma List_last_app (l1 l2 : list string) d :
  l2 ≠ [] → List.last (l1 ++ l2) d = List.last l2 d.
Proof.
  intros Hne. induction l1 as [|x l1 IH]; [done|].
  simpl. destruct (l1 ++ l2) eqn:Happ; [|done].
  apply app_eq_nil in Happ as [_ ->]. done.
Qed.

Lemma append_ne (s t : string) : t ≠ "" → s +:+ t ≠ s.
Proof.
  intros Ht. induction s as [|c s IH]; simpl; [done|].
  intros Heq. injection Heq as Heq. done.
Qed.

Lemma tail_parts_cases p : tail_parts p = p ∨ p = "/" :: tail_parts p.
Proof.
  destruct p as [|x t]; [by left|].
  destruct x as [|a x']; [by left|].
  destruct a as [[] [] [] [] [] [] [] []]; destruct x'; try (by left); by right.
Qed.

(** A path is its anchor followed by its other parts. *)
Lemma anchor_split p :
  take (length p - length (tail_parts p)) p ++ tail_parts p = p.
Proof.
  destruct (tail_parts_cases p) as [->|Hp].
  - by rewrite Nat.sub_diag.
  - rewrite Hp at 1 3 4. simpl.
    by replace (S (length (tail_parts p)) - length (tail_parts p)) with 1 by lia.
Qed.

Lemma tail_parts_last p :
  tail_parts p ≠ [] → List.last (tail_parts p) "" = List.last p "".
Proof.
  intros Hne. rewrite <- (anchor_split p) at 2. by rewrite List_last_app.
Qed.



Lemma with_tmp_suffix_ok p tmp :
  with_tmp_suffix p = Ok tmp →
  path_name p ≠ "" ∧ List.last tmp "" = path_name p +:+ ".tmp".
Proof.
  unfold with_tmp_suffix. case_bool_decide as Hname; [done|].
  intros [= <-]. split; [done|]. by rewrite List_last_app.
Qed.


Lemma parent_length p : tail_parts p ≠ [] → length p = S (length (parent p)).
Proof.
  intros Hne. unfold parent. destruct (tail_parts p) eqn:Ht; [done|].
  assert (p ≠ []) as Hp by (intros ->; done).
  rewrite (app_removelast_last "" Hp) at 1. rewrite length_app. simpl. lia.
Qed.

End Paths.

(** ** The file system operations, when they succeed *)

Section Operations.
Context `{RT : Runtime}.
Implicit Types (p src dst : Path) (w : World).

Lemma bind_ok {A B} (m : Exc World A) (k : A → Exc World B) w b w' :
  (m ≫= k) w = (Ok b, w') → ∃ a w1, m w = (Ok a, w1) ∧ k a w1 = (Ok b, w').
Proof.
  unfold mbind, Exc_bind. destruct (m w) as [[a|err] w1]; [|done]. by exists a, w1.
Qed.

Lemma read_text_ok p w text w' :
  read_text p w = (Ok text, w') → w' = w ∧ nodes w !! p = Some (File text).
Proof. unfold read_text. op_cases. intros [= -> ->]. by split. Qed.

Lemma load_json_ok p w v w' :
  load_json p w = (Ok v, w') →
  w' = w ∧ ∃ text, nodes w !! p = Some (File text) ∧ json_loads text = Ok v.
Proof.
  intros (text & w1 & [-> Hfile]%read_text_ok & Hlift)%bind_ok.
  unfold lift in Hlift. injection Hlift as Hv <-. split; [done|]. by exists text.
Qed.

(** [mkdir] neither creates nor removes a file, and touches no path longer
    than the one it is called on. *)
Lemma mkdir_from_nodes base rest w :
  let w' := (mkdir_from base rest w).2 in
  (∀ q c, nodes w' !! q = Some (File c) ↔ nodes w !! q = Some (File c))
  ∧ (∀ q, length base + length rest < length q → nodes w' !! q = nodes w !! q).
Proof.
  revert base w. induction rest as [|n rest IH]; intros base w; simpl; [done|].
  destruct (is_dir w (base ++ [n])) eqn:Hdir.
  - destruct (IH (base ++ [n]) w) as [Hfiles Hlong]. split; [done|].
    intros q Hq. apply Hlong. rewrite length_app. simpl. lia.
  - destruct (nodes w !! (base ++ [n])) eqn:Hnode; [done|].
    destruct (fault w OpMkdir (base ++ [n])); [done|].
    destruct (IH (base ++ [n]) (set_nodes w (<[base ++ [n] := Dir]> (nodes w))))
      as [Hfiles Hlong].
    split.
    + intros q c. rewrite Hfiles. simpl.
      destruct (decide (q = base ++ [n])) as [->|Hne].
      * rewrite lookup_insert_eq, Hnode. done.
      * by rewrite lookup_insert_ne.
    + intros q Hq. rewrite Hlong by (rewrite length_app; simpl; lia).
      simpl. apply lookup_insert_ne. intros <-.
      rewrite length_app in Hq. simpl in Hq. lia.
Qed.

(** Making the parent directories of [p] leaves the files as they are, and
    [p] itself a directory or not as it was. *)
Lemma mkdir_parents_nodes p w :
  let w1 := (mkdir_parents (parent p) w).2 in
  (∀ q c, nodes w1 !! q = Some (File c) ↔ nodes w !! q = Some (File c))
  ∧ is_dir w1 p = is_dir w p.
Proof.
  unfold mkdir_parents.
  destruct (mkdir_from_nodes
              (take (length (parent p) - length (tail_parts (parent p))) (parent p))
              (tail_parts (parent p)) w) as [Hfiles Hlong].
  split; [exact Hfiles|].
  unfold is_dir. destruct (tail_parts p) eqn:Htail; [done|].
  rewrite Hlong; [done|].
  rewrite <- length_app, anchor_split, (parent_length p); [lia|].
  by rewrite Htail.
Qed.

Lemma copy2_ok src dst w w' :
  copy2 src dst w = (Ok tt, w') →
  ∃ c, nodes w !! src = Some (File c)
       ∧ let dst' := if is_dir w dst then dst ++ [path_name src] else dst in
         dst' ≠ src ∧ w' = set_nodes w (<[dst' := File c]> (nodes w)).
Proof.
  unfold copy2. op_cases; intros [= <-]; eexists; (split; [done|]);
    (split; [|done]);
    match goal with H : bool_decide _ = false |- _ =>
      by apply bool_decide_eq_false in H end.
Qed.

Lemma write_text_ok p data w w' :
  write_text p data w = (Ok tt, w') →
  w' = set_nodes w (<[p := File data]> (nodes w)).
Proof. unfold write_text. op_cases. by intros [= <-]. Qed.

Lemma replace_ok src dst w w' :
  replace src dst w = (Ok tt, w') →
  ∃ c, nodes w !! src = Some (File c)
       ∧ w' = set_nodes w (<[dst := File c]> (delete src (nodes w))).
Proof. unfold replace. op_cases. intros [= <-]. eexists. by split. Qed.

End Operations.

(** ** Assignment in a [dict] *)

Section Dicts.
Implicit Types (d : Dict) (k key : string) (v : Json).

Lemma dict_lookup_set_eq d k v : dict_lookup (dict_set d k v) k = Some v.
Proof.
  induction d as [|[k' x] d IH]; simpl.
  - by rewrite bool_decide_eq_true_2.
  - case_bool_decide as Hk; simpl.
    + by rewrite bool_decide_eq_true_2.
    + by rewrite bool_decide_eq_false_2.
Qed.

Lemma dict_lookup_set_ne d k key v :
  k ≠ key → dict_lookup (dict_set d k v) key = dict_lookup d key.
Proof.
  intros Hne. induction d as [|[k' x] d IH]; simpl.
  - by rewrite bool_decide_eq_false_2.
  - case_bool_decide as Hk; simpl.
    + subst k'. by rewrite !bool_decide_eq_false_2.
    + by rewrite IH.
Qed.

(** The fields under other keys stay, in their order. *)
Lemma dict_set_others (P : string * Json → Prop) `{!∀ kv, Decision (P kv)} d k v :
  (∀ x, ¬ P (k, x)) →
  filter P (dict_set d k v) = filter P d.
Proof.
  intros Hk. induction d as [|[k' x] d IH]; simpl.
  - by rewrite filter_cons_False.
  - case_bool_decide as Hk'.
    + subst k'. by rewrite !filter_cons_False.
    + rewrite !filter_cons. by rewrite IH.
Qed.

(** An assignment keeps the keys in place and puts a new key last. *)
Lemma dict_set_keys d k v :
  (k ∈ d.*1 → (dict_set d k v).*1 = d.*1)
  ∧ (k ∉ d.*1 → (dict_set d k v).*1 = d.*1 ++ [k]).
Proof.
  induction d as [|[k' x] d [IHin IHnin]]; cbn [dict_set].
  - split; [by intros ?%elem_of_nil|done].
  - case_bool_decide as Hk'; rewrite !fmap_cons; cbn [fst].
    + subst k'. split; [done|]. intros []. left.
    + split.
      * intros [?|?]%elem_of_cons; [by subst|]. by rewrite IHin.
      * intros [_ ?]%not_elem_of_cons. by rewrite IHnin.
Qed.

Lemma dict_set_NoDup d k v : NoDup d.*1 → NoDup (dict_set d k v).*1.
Proof.
  intros Hd. destruct (dict_set_keys d k v) as [Hin Hnin].
  destruct (decide (k ∈ d.*1)) as [Hk|Hk]; [by rewrite Hin|].
  rewrite Hnin by done.
  apply NoDup_app. split; [done|]. split; [|apply NoDup_singleton].
  intros x Hx ->%list_elem_of_singleton. done.
Qed.

Lemma dict_lookup_get_explicit d v :
  dict_get (dict_set (dict_set d "extensionMode" (JString "explicit")) "extensions" v)
    "extensionMode" = JString "explicit".
Proof.
  unfold dict_get. by rewrite dict_lookup_set_ne, dict_lookup_set_eq.
Qed.

End Dicts.

(** ** One plan applied with success *)

Section ApplyOne.
Context `{RT : Runtime}.
Implicit Types (plan : WorkspacePlan) (wd bd rel tmp : Path) (w : World).

(** A batch of one plan counts one change exactly when the plan is changed
    and not skipped and the body of the [try] runs to its end. *)
Lemma apply_plan_single plan wd bd w w' :
  apply_plan [plan] wd bd w = ((1, 0), w') →
  eligible plan = true ∧ apply_one plan wd bd w = (Ok tt, w').
Proof.
  unfold apply_plan, eligible. simpl.
  destruct (changed plan), (skipped plan); simpl; try done.
  destruct (apply_one plan wd bd w) as [[[]|err] w1]; [|done].
  by intros [= ->].
Qed.

(** The steps of a successful application, in the order of the script. *)
Lemma apply_one_ok plan wd bd w w' :
  apply_one plan wd bd w = (Ok tt, w') →
  ∃ text data rel tmp w2,
    nodes w !! path plan = Some (File text)
    ∧ json_loads text = Ok (JDict data)
    ∧ relative_to (path plan) wd = Ok rel
    ∧ copy2 (path plan) (joinpath bd rel)
        (mkdir_parents (parent (joinpath bd rel)) w).2 = (Ok tt, w2)
    ∧ with_tmp_suffix (path plan) = Ok tmp
    ∧ replace tmp (path plan)
        (set_nodes w2
           (<[tmp := File
                (json_dumps
                   (JDict (dict_set
                      (dict_set data "extensionMode" (JString (after_mode plan)))
                      "extensions" (JList (JString <$> after_extensions plan))))
                 +:+ String "010" "")]> (nodes w2)))
      = (Ok tt, w').
Proof.
  unfold apply_one.
  intros (raw & wa & [Hwa (text & Hfile & Hloads)]%load_json_ok & H)%bind_ok.
  subst wa.
  apply bind_ok in H as (data & wb & Hraw & H).
  destruct raw; try done. injection Hraw as -> <-.
  apply bind_ok in H as (rel & wc & Hrel & H). injection Hrel as Hrel <-.
  apply bind_ok in H as ([] & w1 & Hmkdir & H).
  apply bind_ok in H as ([] & w2 & Hcopy & H).
  apply bind_ok in H as (tmp & wd' & Htmp & H). injection Htmp as Htmp <-.
  apply bind_ok in H as ([] & w3 & ->%write_text_ok & H).
  exists text, data, rel, tmp, w2.
  repeat split; try done. by rewrite Hmkdir.
Qed.

(** After a successful application the file holds the serialization of the
    object read from it, with the two assignments made; when decoding
    undoes the serialization, loading the file again gives that object. *)
Lemma apply_one_written plan wd bd w w' :
  apply_one plan wd bd w = (Ok tt, w') →
  ∃ text data,
    nodes w !! path plan = Some (File text)
    ∧ json_loads text = Ok (JDict data)
    ∧ let data' :=
        dict_set (dict_set data "extensionMode" (JString (after_mode plan)))
          "extensions" (JList (JString <$> after_extensions plan)) in
      let serialized := json_dumps (JDict data') +:+ String "010" "" in
      nodes w' !! path plan = Some (File serialized)
      ∧ (json_loads serialized = Ok (JDict data') →
         load_json (path plan) w' = (Ok (JDict data'), w')).
Proof.
  intros Hone.
  pose proof (apply_one_env plan wd bd w) as [Hfault _]. rewrite Hone in Hfault.
  pose proof Hone as Hread.
  apply apply_one_ok in Hone
    as (text & data & rel & tmp & w2 & Hfile & Hloads & Hrel & Hcopy & Htmp & Hrep).
  apply replace_ok in Hrep as (c & Hc & Hw').
  assert (Hnew : nodes w' !! path plan = Some (File c))
    by (rewrite Hw'; apply lookup_insert_eq).
  simpl in Hc. rewrite lookup_insert_eq in Hc. injection Hc as <-. clear Hw'.
  exists text, data. split; [done|]. split; [done|]. split; [exact Hnew|].
  intros Hround. unfold load_json, mbind, Exc_bind, read_text.
  simpl in Hfault. rewrite Hfault.
  apply with_tmp_suffix_ok in Htmp as [Hname _].
  unfold apply_one, load_json, mbind, Exc_bind, read_text in Hread.
  destruct (fault w OpRead (path plan)); [done|].
  unfold is_dir. destruct (tail_parts (path plan)) eqn:Htail.
  { unfold path_name in Hname. by rewrite Htail in Hname. }
  rewrite Hnew. unfold lift. by rewrite Hround.
Qed.

(** When the backup path is already a directory, [shutil.copy2] puts the
    copy inside it, under the name of the file: the bytes are kept there. *)
Lemma apply_one_backup_in_directory plan wd bd rel w w' :
  apply_one plan wd bd w = (Ok tt, w') →
  relative_to (path plan) wd = Ok rel →
  is_dir w (joinpath bd rel) = true →
  ∃ text,
    nodes w !! path plan = Some (File text)
    ∧ nodes w' !! (joinpath bd rel ++ [path_name (path plan)]) = Some (File text).
Proof.
  intros Hone Hrel Hisdir.
  apply apply_one_ok in Hone
    as (text & data & rel' & tmp & w2 & Hfile & Hloads & Hrel' & Hcopy & Htmp & Hrep).
  rewrite Hrel in Hrel'. injection Hrel' as <-.
  set (backup := joinpath bd rel) in *.
  assert (Htmp_t : tmp ≠ backup ++ [path_name (path plan)]).
  { apply with_tmp_suffix_ok in Htmp as [_ Hlast]. intros ->.
    rewrite List_last_app in Hlast by done. simpl in Hlast.
    by apply (append_ne (path_name (path plan)) ".tmp"). }
  destruct (mkdir_parents_nodes backup w) as [Hfiles Hdir].
  set (w1 := (mkdir_parents (parent backup) w).2) in *.
  rewrite Hisdir in Hdir.
  apply copy2_ok in Hcopy as (c & Hc & Hdst & ->). rewrite Hdir in Hdst, Hrep.
  apply Hfiles in Hc. rewrite Hfile in Hc. injection Hc as <-.
  apply replace_ok in Hrep as (c' & _ & ->). simpl.
  exists text. split; [done|].
  rewrite lookup_insert_ne by (by intros Heq; apply Hdst).
  rewrite lookup_delete_ne by done.
  rewrite lookup_insert_ne by done.
  by rewrite lookup_insert_eq.
Qed.

Lemma build_plan_path p include_todos force w :
  path (build_plan p include_todos force w) = p.
Proof.
  unfold build_plan. destruct (load_json p w) as [[v|err] w0]; [|done].
  destruct v; try done. by case_match.
Qed.

(** Idempotence: a file that was migrated, planned again without [force],
    is skipped as already explicit (given that decoding undoes the
    serialization of the runtime). *)
Lemma migrate_then_plan_again p include_todos force include_todos' wd bd w w' :
  (∀ v, json_loads (json_dumps v +:+ String "010" "") = Ok v) →
  apply_plan [build_plan p include_todos force w] wd bd w = ((1, 0), w') →
  let again := build_plan p include_todos' false w' in
  skipped again = true ∧ reason again = "already-explicit" ∧ changed again = false.
Proof.
  intros Hround [_ Hone]%apply_plan_single again.
  apply apply_one_written in Hone as (text & data & _ & _ & _ & Hreload).
  specialize (Hreload (Hround _)). rewrite build_plan_path in Hreload.
  assert (Hmode : after_mode (build_plan p include_todos force w) = "explicit").
  { unfold build_plan. destruct (load_json p w) as [[v|err] w0]; [|done].
    destruct v; try done. by case_match. }
  rewrite Hmode in Hreload.
  subst again. unfold build_plan. rewrite Hreload.
  rewrite dict_lookup_get_explicit. done.
Qed.

End ApplyOne.

(** ** The apply engine: what it leaves alone *)

Section ApplyFrame.
Context `{RT : Runtime}.
Implicit Types (plan : WorkspacePlan) (wd bd q : Path) (w : World) (n : Node).

Lemma bind_run {A B} (m : Exc World A) (k : A → Exc World B) w :
  (m ≫= k) w
  = match m w with
    | (Ok a, w1) => k a w1
    | (Raise err, w1) => (Raise err, w1)
    end.
Proof. reflexivity. Qed.

(** [mkdir] keeps every node there is. *)
Lemma mkdir_from_keeps base rest w q n :
  nodes w !! q = Some n → nodes (mkdir_from base rest w).2 !! q = Some n.
Proof.
  revert base w. induction rest as [|x rest IH]; intros base w Hq; simpl; [done|].
  destruct (is_dir w (base ++ [x])); [by apply IH|].
  destruct (nodes w !! (base ++ [x])) eqn:Hnode; [done|].
  destruct (fault w OpMkdir (base ++ [x])); [done|].
  apply IH. simpl. rewrite lookup_insert_ne; [done|]. intros <-. congruence.
Qed.

(** [copy2] writes at most its destination, which is not its source. *)
Lemma copy2_keeps src dst w q n :
  nodes w !! q = Some n →
  q ≠ (if is_dir w dst then dst ++ [path_name src] else dst) ∨ q = src →
  nodes (copy2 src dst w).2 !! q = Some n.
Proof.
  intros Hq Hdst. unfold copy2.
  destruct (fault w OpCopy dst); [done|].
  set (dst' := if is_dir w dst then dst ++ [path_name src] else dst) in *.
  cbv zeta. case_bool_decide as Hsame; [done|].
  destruct (is_dir w src); [done|].
  destruct (nodes w !! src) as [[c|]|]; try done.
  destruct (is_dir w dst'); [done|].
  destruct (is_dir w (parent dst')); [|done].
  simpl. rewrite lookup_insert_ne; [done|].
  intros <-. by destruct Hdst as [Hne| ->].
Qed.

Lemma write_text_keeps p data w q n :
  nodes w !! q = Some n → q ≠ p → nodes (write_text p data w).2 !! q = Some n.
Proof.
  intros Hq Hne. unfold write_text. op_cases. simpl. by rewrite lookup_insert_ne.
Qed.

(** What [replace] does, whatever the outcome. *)
Lemma replace_cases src dst w :
  (∃ err, replace src dst w = (Raise err, w))
  ∨ (∃ c, nodes w !! src = Some (File c)
          ∧ replace src dst w
            = (Ok tt, set_nodes w (<[dst := File c]> (delete src (nodes w))))).
Proof. unfold replace. op_cases; eauto. Qed.

(** A node other than the temporary file is kept by the body of the [try]:
    the file of the plan when the body raises, any other node outside the
    backup directory in every case. *)
Lemma apply_one_nodes plan wd bd w q n :
  nodes w !! q = Some n →
  q ≠ removelast (path plan) ++ [path_name (path plan) +:+ ".tmp"] →
  (q = path plan → ∃ err, (apply_one plan wd bd w).1 = Raise err) →
  (q ≠ path plan → ¬ bd `prefix_of` q) →
  nodes (apply_one plan wd bd w).2 !! q = Some n.
Proof.
  intros Hq Htmp Hraise Hout.
  destruct (apply_one plan wd bd w) as [r w'] eqn:Hone. simpl in *.
  unfold apply_one in Hone. rewrite bind_run in Hone.
  pose proof (load_json_world (path plan) w) as Hw.
  destruct (load_json (path plan) w) as [[raw|e] w1]; simpl in Hw; subst w1;
    [|by injection Hone as <- <-].
  rewrite bind_run in Hone.
  destruct raw as [| | | | | |data]; unfold mret, Exc_ret, raise in Hone;
    cbv beta iota in Hone; try (by injection Hone as <- <-).
  rewrite bind_run in Hone. unfold lift at 1 in Hone.
  destruct (relative_to (path plan) wd) as [rel|e] eqn:Hrel;
    [|by injection Hone as <- <-].
  rewrite bind_run in Hone.
  pose proof (mkdir_from_keeps
                (take (length (parent (joinpath bd rel))
                       - length (tail_parts (parent (joinpath bd rel))))
                   (parent (joinpath bd rel)))
                (tail_parts (parent (joinpath bd rel))) w q n Hq) as Hq1.
  fold (mkdir_parents (parent (joinpath bd rel))) in Hq1.
  destruct (mkdir_parents (parent (joinpath bd rel)) w) as [[[]|e] w1];
    simpl in Hq1; [|by injection Hone as <- <-].
  rewrite bind_run in Hone.
  assert (Hq2 : nodes (copy2 (path plan) (joinpath bd rel) w1).2 !! q = Some n).
  { apply copy2_keeps; [done|].
    destruct (decide (q = path plan)) as [->|Hne]; [by right|left].
    intros ->. apply (Hout Hne). unfold joinpath.
    destruct (is_dir w1 (bd ++ rel)).
    - rewrite <- app_assoc. by apply prefix_app_r.
    - by apply prefix_app_r. }
  destruct (copy2 (path plan) (joinpath bd rel) w1) as [[[]|e] w2];
    simpl in Hq2; [|by injection Hone as <- <-].
  rewrite bind_run in Hone. unfold lift at 1, with_tmp_suffix in Hone.
  case_bool_decide as Hname; [by injection Hone as <- <-|].
  rewrite bind_run in Hone.
  set (tmp := removelast (path plan) ++ [path_name (path plan) +:+ ".tmp"]) in *.
  set (text := json_dumps _ +:+ _) in Hone.
  pose proof (write_text_keeps tmp text w2 q n Hq2 Htmp) as Hq3.
  destruct (write_text tmp text w2) as [[[]|e] w3];
    simpl in Hq3; [|by injection Hone as <- <-].
  destruct (replace_cases tmp (path plan) w3) as [(err & Hrep)|(c & Hc & Hrep)];
    rewrite Hrep in Hone; injection Hone as <- <-; [done|].
  simpl.
  destruct (decide (q = path plan)) as [->|Hne].
  - by destruct (Hraise eq_refl).
  - rewrite lookup_insert_ne by done. by rewrite lookup_delete_ne.
Qed.

(** The name of the temporary file is not the name of the file. *)
Lemma tmp_name_ne (p : Path) : p ≠ removelast p ++ [path_name p +:+ ".tmp"].
Proof.
  intros Heq.
  destruct (decide (tail_parts p = [])) as [Htail|Htail].
  - destruct (tail_parts_cases p) as [Hp|Hp]; rewrite Htail in Hp.
    + subst p. done.
    + subst p. done.
  - apply (f_equal (λ l, List.last l "")) in Heq.
    rewrite List_last_app in Heq by done. simpl in Heq.
    rewrite <- (tail_parts_last p Htail) in Heq.
    by apply (append_ne (path_name p) ".tmp").
Qed.

(** The outcomes of a batch of one plan that counts a failure. *)
Lemma apply_plan_single_failed plan wd bd w w' :
  apply_plan [plan] wd bd w = ((0, 1), w') →
  ∃ err, (apply_one plan wd bd w).1 = Raise err
         ∧ nodes w' = nodes (apply_one plan wd bd w).2.
Proof.
  unfold apply_plan. simpl.
  destruct (negb (changed plan) || skipped plan); [done|].
  destruct (apply_one plan wd bd w) as [[[]|err] w1]; [done|].
  intros [= <-]. by exists err.
Qed.

(** A file that is missing stays missing when the body raises. *)
Lemma apply_one_missing plan wd bd w :
  nodes w !! path plan = None → (apply_one plan wd bd w).2 = w.
Proof.
  intros Hnone. unfold apply_one. rewrite bind_run.
  destruct (load_json (path plan) w) as [[raw|e] w1] eqn:Hload.
  - apply load_json_ok in Hload as [_ (text & Hfile & _)]. congruence.
  - pose proof (load_json_world (path plan) w) as Hw. by rewrite Hload in Hw.
Qed.

End ApplyFrame.

(** ** The backup of a plan, in its batch *)

Section Backup.
Context `{RT : Runtime}.
Implicit Types (plan : WorkspacePlan) (plans : list WorkspacePlan)
  (wd bd q rel tmp : Path) (w : World) (n : Node).




End Backup.

(** C4.  When the file cannot be read or decoded, or decodes to a value that
    is not an object, [build_plan] returns a plan that is skipped and not
    changed, with the reason "parse-error" or "invalid-json-root", carrying
    the message of the error, with an empty before state and an after state
    without extensions; [apply_plan] passes the plan over wherever it
    stands in the batch, so that nothing is written or backed up for it. *)
Theorem build_plan_load_failure `{RT : Runtime} :
  ∀ (path : Path) (include_todos force : bool) (w : World) (code msg : string),
    load_failure (load_json path w).1 code msg →
    let plan := build_plan path include_todos force w in
    skipped plan = true ∧ changed plan = false
    ∧ reason plan = code ∧ error plan = Some msg
    ∧ before_mode plan = None ∧ before_extensions plan = []
    ∧ after_mode plan = "explicit" ∧ after_extensions plan = []
    ∧ ∀ pre post wd bd w',
        apply_plan (pre ++ plan :: post) wd bd w' = apply_plan (pre ++ post) wd bd w'.
Proof.
  intros path include_todos force w code msg Hfail plan.
  assert (Hplan : skipped plan = true ∧ changed plan = false
                  ∧ reason plan = code ∧ error plan = Some msg
                  ∧ before_mode plan = None ∧ before_extensions plan = []
                  ∧ after_mode plan = "explicit" ∧ after_extensions plan = []).
  { subst plan. unfold build_plan.
    destruct (load_json path w) as [r w0]. simpl in Hfail.
    destruct Hfail as [err|v Hv]; [done|]. by destruct v. }
  destruct Hplan as (Hs & Hc & Hr & He & Hbm & Hbe & Ham & Hae).
  repeat split; try done.
  intros pre post wd bd w'. by apply apply_plan_skip_inside.
Qed.

Lemma build_plan_load_failure_witness :
  load_failure (load_json (RT:=example_runtime) broken_path example_world).1
    "parse-error"
    "Expecting property name enclosed in double quotes: line 1 column 2 (char 1)"
  ∧ let plan := build_plan (RT:=example_runtime) broken_path true false example_world in
    skipped plan = true ∧ changed plan = false ∧ reason plan = "parse-error"
    ∧ apply_plan (RT:=example_runtime) [plan] ws_dir backup_root example_world
      = ((0, 0), example_world).
Proof.
  assert (Hfail : load_failure
            (load_json (RT:=example_runtime) broken_path example_world).1
            "parse-error"
            "Expecting property name enclosed in double quotes: line 1 column 2 (char 1)")
    by (vm_compute; constructor).
  split; [exact Hfail|].
  destruct (build_plan_load_failure (RT:=example_runtime)
              broken_path true false example_world _ _ Hfail)
    as (Hs & Hc & Hr & _ & _ & _ & _ & _ & Happly).
  split; [exact Hs|]. split; [exact Hc|]. split; [exact Hr|].
  exact (Happly [] [] ws_dir backup_root example_world).
Defined.

(** C10.  [build_plan] tests [memoryEnabled] by Python truthiness: in a plan
    that is not skipped, "memory" is among the after extensions if and only
    if [bool(data.get("memoryEnabled"))] is true or, under [force], "memory"
    was among the extensions of the file.  A string is true unless empty, a
    number unless zero, a list or an object unless empty, a boolean is
    itself, [null] and an absent field are false. *)
Theorem memory_enabled_truthiness `{RT : Runtime} :
  (∀ (path : Path) (include_todos force : bool) (w : World),
     let plan := build_plan path include_todos force w in
     skipped plan = false →
     ∃ data,
       (load_json path w).1 = Ok (JDict data)
       ∧ ("memory" ∈ after_extensions plan
          ↔ truthy (dict_get data "memoryEnabled") = true
            ∨ (force = true ∧ "memory" ∈ before_extensions plan)))
  ∧ (∀ s, truthy (JString s) = true ↔ s ≠ "")
  ∧ (∀ n, truthy (JInt n) = true ↔ n ≠ 0%Z)
  ∧ (∀ f, truthy (JFloat f) = true ↔ ∀ sign, f ≠ S754_zero sign)
  ∧ (∀ items, truthy (JList items) = true ↔ items ≠ [])
  ∧ (∀ fields, truthy (JDict fields) = true ↔ fields ≠ [])
  ∧ (∀ b, truthy (JBool b) = b)
  ∧ truthy JNull = false
  ∧ (∀ data, dict_lookup data "memoryEnabled" = None →
             truthy (dict_get data "memoryEnabled") = false).
Proof.
  split; [|repeat split]; try done.
  - intros path include_todos force w plan Hskip.
    destruct (build_plan_not_skipped path include_todos force w Hskip)
      as (data & Hload & _ & Hafter).
    fold plan in Hafter. exists data. split; [done|].
    rewrite Hafter. clear Hafter. simpl.
    set (base := if force then before_extensions plan else []).
    assert (Hbase : "memory" ∈ base ↔ force = true ∧ "memory" ∈ before_extensions plan).
    { subst base. destruct force; [tauto|].
      split; [by intros ?%elem_of_nil|]. by intros [? _]. }
    rewrite <- Hbase.
    repeat case_decide; rewrite ?elem_of_app, ?list_elem_of_singleton;
      destruct (decide ("memory" ∈ base)); intuition congruence.
  - simpl. intros Ht ->. done.
  - simpl. intros Hs. rewrite negb_true_iff. by apply bool_decide_eq_false.
  - simpl. intros Ht ->. done.
  - simpl. intros Hn. apply negb_true_iff. by apply Z.eqb_neq.
  - intros Ht sign ->. done.
  - intros Hf. destruct f; try done. by destruct (Hf s).
  - by intros Ht ->.
  - intros Hi. by destruct items.
  - by intros Ht ->.
  - intros Hf. by destruct fields.
  - intros data Hnone. unfold dict_get. by rewrite Hnone.
Qed.

Lemma memory_enabled_truthiness_witness :
  let plan := build_plan (RT:=example_runtime) stringly_path false false example_world in
  skipped plan = false
  ∧ truthy (JString "yes") = true
  ∧ "memory" ∈ after_extensions plan.
Proof.
  assert (Hskip : skipped (build_plan (RT:=example_runtime) stringly_path false false
                             example_world) = false) by (vm_compute; reflexivity).
  split; [exact Hskip|]. split; [reflexivity|].
  destruct (memory_enabled_truthiness (RT:=example_runtime)) as [Hplan _].
  destruct (Hplan stringly_path false false example_world Hskip)
    as (data & Hload & Hmem).
  assert (data = stringly_data) as ->
    by (vm_compute in Hload; injection Hload as <-; reflexivity).
  apply Hmem. left. reflexivity.
Defined.

(** C5.  [apply_plan] returns its two counts for every batch and every
    world: an exception raised while one plan is applied is caught.  The
    counts add up to the number of changed, non-skipped plans; the failures
    are as many as the lines added to standard error, each naming the path
    of a changed, non-skipped plan of the batch (in the order of the batch)
    and the text of the exception that applying it raised.  One turn on
    such a plan counts it once, as changed or as failed, and goes on with
    the rest of the batch from the world the plan left; any other plan is
    passed over; and a batch in two parts gives the sum of the counts of
    its parts, the second run from the world the first left. *)
Theorem apply_plan_failure_isolation `{RT : Runtime} :
  ∀ (workspaces_dir backup_dir : Path),
    (∀ plans w, ∃ errs : list (WorkspacePlan * string),
       let r := apply_plan plans workspaces_dir backup_dir w in
       r.1.1 + r.1.2 = length (filter eligible plans)
       ∧ r.1.2 = length errs
       ∧ stderr r.2 = stderr w ++ ((λ pe, error_line pe.1 pe.2) <$> errs)
       ∧ errs.*1 `sublist_of` filter eligible plans
       ∧ Forall (λ pe, ∃ w0,
                   (apply_one pe.1 workspaces_dir backup_dir w0).1 = Raise pe.2) errs)
    ∧ (∀ plan rest w,
         eligible plan = true →
         apply_plan (plan :: rest) workspaces_dir backup_dir w
         = match apply_one plan workspaces_dir backup_dir w with
           | (Ok _, w1) =>
               let '((c, f), w2) := apply_plan rest workspaces_dir backup_dir w1 in
               ((S c, f), w2)
           | (Raise err, w1) =>
               let '((c, f), w2) :=
                 apply_plan rest workspaces_dir backup_dir
                   (eprint (error_line plan err) w1) in
               ((c, S f), w2)
           end)
    ∧ (∀ plan rest w,
         eligible plan = false →
         apply_plan (plan :: rest) workspaces_dir backup_dir w
         = apply_plan rest workspaces_dir backup_dir w)
    ∧ (∀ plans1 plans2 w,
         apply_plan (plans1 ++ plans2) workspaces_dir backup_dir w
         = let '((c1, f1), w1) := apply_plan plans1 workspaces_dir backup_dir w in
           let '((c2, f2), w2) := apply_plan plans2 workspaces_dir backup_dir w1 in
           ((c1 + c2, f1 + f2), w2)).
Proof.
  intros wd bd. split; [|split; [|split]].
  - intros plans. induction plans as [|plan rest IH]; intros w.
    + exists []. simpl. rewrite app_nil_r. by repeat split.
    + destruct (eligible plan) eqn:Hel.
      * rewrite apply_plan_cons_eligible by done.
        rewrite filter_cons_True by (by rewrite Hel).
        pose proof (apply_one_env plan wd bd w) as Henv.
        destruct (apply_one plan wd bd w) as [[[]|err] w1] eqn:Hone; simpl in Henv.
        -- destruct (IH w1) as (errs & Hsum & Hf & Herr & Hsub & Hall).
           exists errs. simpl in *.
           destruct (apply_plan rest wd bd w1) as [[c f] w2]. simpl in *.
           repeat split; try done.
           ++ by rewrite <- Hsum.
           ++ rewrite Herr. by destruct Henv as [_ ->].
           ++ by apply sublist_cons.
        -- destruct (IH (eprint (error_line plan err) w1))
             as (errs & Hsum & Hf & Herr & Hsub & Hall).
           exists ((plan, err) :: errs). simpl in *.
           destruct (apply_plan rest wd bd _) as [[c f] w2]. simpl in *.
           repeat split.
           ++ rewrite <- Hsum. lia.
           ++ by rewrite Hf.
           ++ rewrite Herr. destruct Henv as [_ ->]. by rewrite <- app_assoc.
           ++ by apply sublist_skip.
           ++ constructor; [|done]. exists w. simpl. by rewrite Hone.
      * rewrite apply_plan_cons_skip by done.
        rewrite filter_cons_False by (rewrite Hel; intros []).
        apply IH.
  - intros plan rest w. apply apply_plan_cons_eligible.
  - intros plan rest w. apply apply_plan_cons_skip.
  - intros plans1 plans2 w. unfold apply_plan. rewrite apply_loop_app.
    destruct (apply_loop plans1 wd bd 0 0 w) as [[c1 f1] w1].
    rewrite apply_loop_counters.
    by destruct (apply_loop plans2 wd bd 0 0 w1) as [[c2 f2] w2].
Qed.

Lemma apply_plan_failure_isolation_witness :
  let failing := build_plan (RT:=example_runtime) legacy_path true false readonly_world in
  let passing := build_plan (RT:=example_runtime) stringly_path true false readonly_world in
  let r := apply_plan (RT:=example_runtime) [failing; passing] ws_dir backup_root
             readonly_world in
  eligible failing = true
  ∧ (apply_one (RT:=example_runtime) failing ws_dir backup_root readonly_world).1
    = Raise "[Errno 13] Permission denied: '/w/u/legacy.json.tmp' -> '/w/u/legacy.json'"
  ∧ r.1 = (1, 1)
  ∧ stderr r.2
    = ["[error] failed to update /w/u/legacy.json: [Errno 13] Permission denied: '/w/u/legacy.json.tmp' -> '/w/u/legacy.json'"].
Proof.
  intros failing passing r.
  assert (Hel : eligible failing = true) by (vm_compute; reflexivity).
  split; [exact Hel|]. split; [vm_compute; reflexivity|].
  destruct (apply_plan_failure_isolation (RT:=example_runtime) ws_dir backup_root)
    as (_ & Hcons & _).
  subst r. rewrite (Hcons failing [passing] readonly_world Hel).
  split; vm_compute; reflexivity.
Defined.

(** C6.  When [apply_plan] applies a plan with success, the file of the plan
    holds the serialization of the object that was read from it at that
    time with two assignments made: [extensionMode] is the after mode of the
    plan and [extensions] its after extensions.  Every other key has the
    value it had, the other fields are the same in the same order, and the
    keys stay unique.  When decoding undoes this serialization, the object
    loaded from the written file is that object. *)
Theorem apply_plan_written_object `{RT : Runtime} :
  ∀ (plan : WorkspacePlan) (workspaces_dir backup_dir : Path) (w w' : World),
    apply_plan [plan] workspaces_dir backup_dir w = ((1, 0), w') →
    ∃ text data data',
      nodes w !! path plan = Some (File text)
      ∧ json_loads text = Ok (JDict data)
      ∧ data' = dict_set (dict_set data "extensionMode" (JString (after_mode plan)))
                  "extensions" (JList (JString <$> after_extensions plan))
      ∧ nodes w' !! path plan
        = Some (File (json_dumps (JDict data') +:+ String "010" ""))
      ∧ dict_lookup data' "extensionMode" = Some (JString (after_mode plan))
      ∧ dict_lookup data' "extensions"
        = Some (JList (JString <$> after_extensions plan))
      ∧ (∀ key, key ≠ "extensionMode" → key ≠ "extensions" →
                dict_lookup data' key = dict_lookup data key)
      ∧ filter (λ kv, kv.1 ≠ "extensionMode" ∧ kv.1 ≠ "extensions") data'
        = filter (λ kv, kv.1 ≠ "extensionMode" ∧ kv.1 ≠ "extensions") data
      ∧ (NoDup data.*1 → NoDup data'.*1)
      ∧ (json_loads (json_dumps (JDict data') +:+ String "010" "") = Ok (JDict data') →
         load_json (path plan) w' = (Ok (JDict data'), w')).
Proof.
  intros plan wd bd w w' [_ Hone]%apply_plan_single.
  apply apply_one_written in Hone as (text & data & Hfile & Hloads & Hnew & Hreload).
  eexists text, data, _. split; [done|]. split; [done|]. split; [reflexivity|].
  split; [exact Hnew|].
  split; [by rewrite dict_lookup_set_ne, dict_lookup_set_eq|].
  split; [by rewrite dict_lookup_set_eq|].
  split; [by intros key H1 H2; rewrite !dict_lookup_set_ne|].
  split.
  { rewrite !dict_set_others; [done| |]; intros x; simpl; tauto. }
  split; [by intros; do 2 apply dict_set_NoDup|].
  exact Hreload.
Qed.

Lemma apply_plan_written_object_witness :
  let plan := build_plan (RT:=example_runtime) legacy_path true false example_world in
  let r := apply_plan (RT:=example_runtime) [plan] ws_dir backup_root example_world in
  r.1 = (1, 0)
  ∧ nodes r.2 !! legacy_path
    = Some (File (example_dumps
                    (JDict [("memoryEnabled", JBool true);
                            ("extensionMode", JString "explicit");
                            ("extensions", JList [JString "memory"; JString "todos"])])
                  +:+ String "010" "")).
Proof.
  intros plan r.
  assert (Hrun : apply_plan (RT:=example_runtime) [plan] ws_dir backup_root example_world
                 = ((1, 0), r.2)) by (vm_compute; reflexivity).
  split; [vm_compute; reflexivity|].
  destruct (apply_plan_written_object (RT:=example_runtime)
              plan ws_dir backup_root example_world r.2 Hrun)
    as (text & data & data' & Hfile & Hloads & Hdata' & Hnew & _).
  assert (text = legacy_text) as ->
    by (vm_compute in Hfile; injection Hfile as <-; reflexivity).
  assert (data = legacy_data) as ->
    by (vm_compute in Hloads; injection Hloads as <-; reflexivity).
  assert (Hpath : path plan = legacy_path) by (vm_compute; reflexivity).
  rewrite Hpath in Hnew. rewrite Hnew, Hdata'. vm_compute. reflexivity.
Defined.




(** * Further properties *)

(** ** The normalizer: extension sets *)

Section Canonical.
Implicit Types (s : string) (l : list string) (items : list Json).

Lemma lstrip_fixed s :
  (∀ c, first_char s = Some c → isspace c = false) → lstrip s = s.
Proof.
  destruct s as [|c s]; [done|]. intros Hfirst. simpl.
  by rewrite (Hfirst c eq_refl).
Qed.

Lemma rstrip_fixed s :
  (∀ c, last_char s = Some c → isspace c = false) → rstrip s = s.
Proof.
  induction s as [|c s IH]; [done|]. intros Hlast. simpl.
  destruct s as [|c' s'].
  - simpl. by rewrite (Hlast c eq_refl).
  - rewrite IH by (intros c0 Hc0; by apply Hlast). done.
Qed.

Lemma strip_idem s : strip (strip s) = strip s.
Proof.
  destruct (strip_spec s) as (pre & post & _ & _ & _ & Hfirst & Hlast).
  unfold strip at 1. rewrite lstrip_fixed by done. by apply rstrip_fixed.
Qed.

Lemma first_occurrences_fixed l : NoDup l → first_occurrences l = l.
Proof.
  induction 1 as [|x l Hx Hl IH]; simpl; [done|].
  rewrite IH. f_equal. apply filter_all. by intros y Hy ->.
Qed.

Lemma trimmed_names_fixed l :
  Forall (λ x, x ≠ "" ∧ strip x = x) l → trimmed_names (JString <$> l) = l.
Proof.
  induction 1 as [|x l [Hx Hs] Hl IH]; [done|].
  rewrite fmap_cons. cbn [trimmed_names].
  rewrite Hs, bool_decide_eq_false_2 by done. by rewrite IH.
Qed.

Lemma normalize_extensions_list items :
  normalize_extensions (JList items) = first_occurrences (trimmed_names items).
Proof.
  unfold normalize_extensions.
  rewrite normalize_loop_spec by (intros x; by rewrite elem_of_empty, elem_of_nil).
  simpl. apply filter_all. intros x _. apply not_elem_of_nil.
Qed.

Lemma canonical_nil : canonical [].
Proof. split; constructor. Qed.

(** Appending a name that is trimmed, not blank and not yet present keeps
    the invariant. *)
Lemma canonical_snoc l x :
  canonical l → x ∉ l → x ≠ "" → strip x = x → canonical (l ++ [x]).
Proof.
  intros [Hnd Hall] Hx Hne Hs. split.
  - apply NoDup_app. split; [done|]. split; [|apply NoDup_singleton].
    by intros y Hy ->%list_elem_of_singleton.
  - apply Forall_app. split; [done|]. by constructor.
Qed.

End Canonical.

(** The result of [normalize_extensions] is an extension set. *)
Lemma canonical_normalize (value : Json) : canonical (normalize_extensions value).
Proof.
  destruct value as [| | | | |items|]; try apply canonical_nil.
  rewrite normalize_extensions_list. split; [apply first_occurrences_NoDup|].
  apply Forall_forall. intros x Hx.
  apply (proj1 (first_occurrences_elem _ _)) in Hx.
  apply (proj1 (trimmed_names_elem _ _)) in Hx as (Hne & s & _ & <-).
  split; [done|]. apply strip_idem.
Qed.

(** X1.  Every name [normalize_extensions] returns is trimmed and not empty:
    [strip] leaves it as it is, and it neither starts nor ends with a
    whitespace character. *)
Theorem normalize_extensions_trimmed :
  ∀ (value : Json) (x : string),
    x ∈ normalize_extensions value →
    x ≠ "" ∧ strip x = x
    ∧ (∀ c, first_char x = Some c → isspace c = false)
    ∧ (∀ c, last_char x = Some c → isspace c = false).
Proof.
  intros value x Hx.
  destruct (canonical_normalize value) as [_ Hall].
  rewrite Forall_forall in Hall. destruct (Hall x Hx) as [Hne Hstrip].
  split; [done|]. split; [done|].
  destruct (strip_spec x) as (pre & post & _ & _ & _ & Hfirst & Hlast).
  rewrite Hstrip in Hfirst, Hlast. by split.
Qed.

Lemma normalize_extensions_trimmed_witness :
  "memory" ∈ normalize_extensions (JList [JString "  memory "; JString "memory"])
  ∧ strip "memory" = "memory".
Proof.
  assert (Hin : "memory" ∈ normalize_extensions
                             (JList [JString "  memory "; JString "memory"]))
    by (vm_compute; left).
  split; [exact Hin|].
  exact (proj1 (proj2 (normalize_extensions_trimmed _ _ Hin))).
Defined.

(** X2.  [normalize_extensions] is idempotent: the list it returns, given
    back as a JSON list of strings, normalizes to itself; so does every
    extension set. *)
Theorem normalize_extensions_idempotent :
  (∀ value : Json,
     normalize_extensions (JList (JString <$> normalize_extensions value))
     = normalize_extensions value)
  ∧ (∀ l : list string,
       canonical l ↔ normalize_extensions (JList (JString <$> l)) = l).
Proof.
  assert (Hfixed : ∀ l, canonical l → normalize_extensions (JList (JString <$> l)) = l).
  { intros l [Hnd Hall]. rewrite normalize_extensions_list.
    rewrite trimmed_names_fixed by done. by apply first_occurrences_fixed. }
  split.
  - intros value. apply Hfixed, canonical_normalize.
  - intros l. split; [apply Hfixed|].
    intros <-. apply canonical_normalize.
Qed.

(** ** The plan builder: what every plan satisfies *)

Section PlanFields.
Context `{RT : Runtime}.
Implicit Types (path : Path) (w : World) (data : Dict).

(** The guarded [append] of the script keeps an extension set. *)
Lemma canonical_append_if (cond : bool) (l : list string) (x : string) :
  canonical l → x ≠ "" → strip x = x →
  canonical (if cond && negb (contains l x) then l ++ [x] else l).
Proof.
  intros Hl Hx Hs. unfold contains.
  destruct cond; simpl; [|done].
  case_bool_decide; simpl; [done|]. by apply canonical_snoc.
Qed.

Lemma before_last_dot_json base : before_last_dot (base +:+ ".json") = Some base.
Proof.
  induction base as [|c base IH]; [done|].
  rewrite append_cons. cbn [before_last_dot]. by rewrite IH.
Qed.

Lemma List_last_two (l : list string) (x y d : string) :
  List.last (l ++ [x; y]) d = y.
Proof. by rewrite (List_last_app l [x; y] d). Qed.

Lemma path_name_two (dir : Path) (u n : string) : path_name (dir ++ [u; n]) = n.
Proof.
  unfold path_name. rewrite tail_parts_last; [apply List_last_two|].
  intros Htail.
  destruct (tail_parts_cases (dir ++ [u; n])) as [Hp|Hp]; rewrite Htail in Hp.
  - by destruct dir.
  - apply (f_equal length) in Hp. rewrite length_app in Hp. simpl in Hp. lia.
Qed.

(** The after extensions of every plan are an extension set. *)
Lemma build_plan_extension_sets_aux path include_todos force w :
  canonical (after_extensions (build_plan path include_todos force w)).
Proof.
  unfold build_plan.
  destruct (load_json path w) as [[v|err] w0]; [|apply canonical_nil].
  destruct v as [| | | | | |data]; try apply canonical_nil.
  pose proof (canonical_normalize (dict_get data "extensions")) as Hbefore.
  case_match; simpl; [done|].
  apply canonical_append_if; [|done..].
  apply canonical_append_if; [|done..].
  destruct force; [done|apply canonical_nil].
Qed.

End PlanFields.

(** X3.  Every plan of [build_plan], skipped or not, carries extension sets:
    its before and its after extensions have no duplicate and no blank
    name, every name is trimmed, and the after mode is "explicit". *)
Theorem build_plan_extension_sets `{RT : Runtime} :
  ∀ (path : Path) (include_todos force : bool) (w : World),
    let plan := build_plan path include_todos force w in
    canonical (before_extensions plan)
    ∧ canonical (after_extensions plan)
    ∧ after_mode plan = "explicit".
Proof.
  intros path include_todos force w plan. subst plan. unfold build_plan.
  destruct (load_json path w) as [[v|err] w0];
    [|by repeat split; try apply canonical_nil].
  destruct v as [| | | | | |data]; try (by repeat split; try apply canonical_nil).
  pose proof (canonical_normalize (dict_get data "extensions")) as Hbefore.
  case_match; simpl; [done|].
  split; [done|]. split; [|done].
  apply canonical_append_if; [|done..].
  apply canonical_append_if; [|done..].
  destruct force; [done|apply canonical_nil].
Qed.

(** X4.  Without [force] a plan that is not skipped starts from the empty
    list: the extensions the file listed are discarded and the after
    extensions are "memory" (when [memoryEnabled] is true) followed by
    "todos" (when todos are included), nothing else. *)
Theorem build_plan_first_migration `{RT : Runtime} :
  ∀ (path : Path) (include_todos : bool) (w : World),
    let plan := build_plan path include_todos false w in
    skipped plan = false →
    ∃ data,
      (load_json path w).1 = Ok (JDict data)
      ∧ after_extensions plan
        = (if truthy (dict_get data "memoryEnabled") then ["memory"] else [])
          ++ (if include_todos then ["todos"] else [])
      ∧ after_extensions plan `sublist_of` ["memory"; "todos"]
      ∧ changed plan = true.
Proof.
  intros path include_todos w plan Hskip. subst plan. unfold build_plan in *.
  destruct (load_json path w) as [[v|err] w0]; [|done].
  destruct v as [| | | | | |data]; try done.
  exists data. split; [done|].
  destruct (bool_decide (_ = Some "explicit") && negb false) eqn:Hshort; [done|].
  rewrite andb_true_r in Hshort. simpl. rewrite Hshort. simpl.
  destruct (truthy (dict_get data "memoryEnabled")), include_todos; simpl;
    repeat split; try done; repeat first [apply sublist_skip | apply sublist_cons | done].
Qed.

Lemma build_plan_first_migration_witness :
  let plan := build_plan (RT:=example_runtime) legacy_path true false example_world in
  skipped plan = false ∧ after_extensions plan = ["memory"; "todos"].
Proof.
  assert (Hskip : skipped (build_plan (RT:=example_runtime) legacy_path true false
                             example_world) = false) by (vm_compute; reflexivity).
  split; [exact Hskip|].
  destruct (build_plan_first_migration (RT:=example_runtime)
              legacy_path true example_world Hskip) as (data & Hload & Hafter & _).
  assert (data = legacy_data) as ->
    by (vm_compute in Hload; injection Hload as <-; reflexivity).
  rewrite Hafter. reflexivity.
Defined.

(** X5.  Under [force] nothing the file listed is dropped or moved: the
    before extensions are a prefix of the after extensions, and what is
    added is "memory" or "todos". *)
Theorem build_plan_force_keeps `{RT : Runtime} :
  ∀ (path : Path) (include_todos : bool) (w : World),
    let plan := build_plan path include_todos true w in
    before_extensions plan `prefix_of` after_extensions plan
    ∧ ∀ x, x ∈ after_extensions plan →
           x ∈ before_extensions plan ∨ x = "memory" ∨ x = "todos".
Proof.
  intros path include_todos w plan. subst plan. unfold build_plan.
  destruct (load_json path w) as [[v|err] w0]; [|by split; [|intros x ?; left]].
  destruct v as [| | | | | |data]; try (by split; [|intros x ?; left]).
  rewrite andb_false_r. simpl.
  set (before := normalize_extensions (dict_get data "extensions")).
  destruct (truthy (dict_get data "memoryEnabled") && negb (contains before "memory"));
    destruct include_todos; simpl;
    repeat match goal with |- context [negb (contains ?l ?x)] =>
      destruct (negb (contains l x)) end; simpl;
    (split;
     [first [done | by apply prefix_app_r | rewrite <- app_assoc; by apply prefix_app_r]
     |intros x; rewrite ?elem_of_app, ?list_elem_of_singleton; tauto]).
Qed.

Lemma build_plan_force_keeps_witness :
  let plan := build_plan (RT:=example_runtime) explicit_path true true example_world in
  before_extensions plan = ["x"] ∧ after_extensions plan = ["x"; "todos"]
  ∧ ("todos" ∈ before_extensions plan ∨ "todos" = "memory" ∨ "todos" = "todos").
Proof.
  intros plan. split; [vm_compute; reflexivity|]. split; [vm_compute; reflexivity|].
  destruct (build_plan_force_keeps (RT:=example_runtime) explicit_path true example_world)
    as [_ Hadded].
  apply Hadded. vm_compute. right. left.
Defined.

(** X6.  For a file [<dir>/<user>/<base>.json] the user id of the plan is
    the name of the directory of the file and the workspace id is the file
    name without ".json"; when [base] is empty or made of dots only (a file
    named ".json"), the workspace id is the whole file name.  A path of a
    single part has the user id "unknown". *)
Theorem build_plan_ids `{RT : Runtime} :
  ∀ (dir : Path) (user base : string) (include_todos force : bool) (w : World),
    (let plan := build_plan (dir ++ [user; base +:+ ".json"]) include_todos force w in
     user_id plan = user
     ∧ workspace_id plan
       = if bool_decide (lstrip_dots base = "") then base +:+ ".json" else base)
    ∧ user_id (build_plan [base] include_todos force w) = "unknown".
Proof.
  intros dir user base include_todos force w.
  assert (Hids : ∀ p, user_id (build_plan p include_todos force w)
                      = (if (2 <=? length p)%nat
                         then nth (length p - 2) p "unknown" else "unknown")
                      ∧ workspace_id (build_plan p include_todos force w) = stem p).
  { intros p. unfold build_plan. destruct (load_json p w) as [[v|err] w0]; [|done].
    destruct v; try done. by case_match. }
  split; [|by rewrite (proj1 (Hids _))].
  cbv zeta. destruct (Hids (dir ++ [user; base +:+ ".json"])) as [-> ->]. split.
  - rewrite length_app. cbn [length].
    replace (length dir + 2 - 2) with (length dir) by lia.
    replace (2 <=? length dir + 2)%nat with true by (symmetry; apply Nat.leb_le; lia).
    rewrite app_nth2 by lia. by rewrite Nat.sub_diag.
  - unfold stem. by rewrite path_name_two, before_last_dot_json.
Qed.

(** The display name of a plan is the [name] field of the file when it is a
    string that is not empty, and the workspace id when the field is
    absent, [null], empty, or the file could not be loaded as an object. *)
Lemma build_plan_name `{RT : Runtime} :
  ∀ (path : Path) (include_todos force : bool) (w : World),
    let plan := build_plan path include_todos force w in
    match (load_json path w).1 with
    | Ok (JDict data) =>
        match dict_lookup data "name" with
        | Some (JString s) => name plan = if bool_decide (s = "") then workspace_id plan else s
        | Some JNull | None => name plan = workspace_id plan
        | Some v => name plan = if truthy v then py_repr v else workspace_id plan
        end
    | _ => name plan = workspace_id plan
    end.
Proof.
  intros path include_todos force w plan. subst plan. unfold build_plan.
  destruct (load_json path w) as [[v|err] w0]; [|done].
  destruct v as [| | | | | |data]; try done. simpl.
  unfold dict_get.
  destruct (dict_lookup data "name") as [[| | | |s| |]|] eqn:Hname;
    case_match; simpl; try done.
  all: by destruct (bool_decide (s = "")).
Qed.

(** ** The apply engine: what a batch leaves alone *)

(** X7.  When applying a plan fails, at whatever step, the file of the plan
    is left as it was: the original is only ever replaced by the final
    rename. *)
Theorem apply_plan_failure_keeps_original `{RT : Runtime} :
  ∀ (plan : WorkspacePlan) (workspaces_dir backup_dir : Path) (w w' : World),
    apply_plan [plan] workspaces_dir backup_dir w = ((0, 1), w') →
    nodes w' !! path plan = nodes w !! path plan.
Proof.
  intros plan wd bd w w' (err & Herr & ->)%apply_plan_single_failed.
  destruct (nodes w !! path plan) as [n|] eqn:Hnode.
  - apply apply_one_nodes; try done; [apply tmp_name_ne|by exists err].
  - by rewrite apply_one_missing.
Qed.

Lemma apply_plan_failure_keeps_original_witness :
  let plan := build_plan (RT:=example_runtime) legacy_path true false readonly_world in
  let r := apply_plan (RT:=example_runtime) [plan] ws_dir backup_root readonly_world in
  r.1 = (0, 1) ∧ nodes r.2 !! legacy_path = Some (File legacy_text).
Proof.
  intros plan r.
  assert (Hrun : apply_plan (RT:=example_runtime) [plan] ws_dir backup_root readonly_world
                 = ((0, 1), r.2)) by (vm_compute; reflexivity).
  split; [vm_compute; reflexivity|].
  assert (Hpath : path plan = legacy_path) by (vm_compute; reflexivity).
  rewrite <- Hpath.
  rewrite (apply_plan_failure_keeps_original (RT:=example_runtime)
             plan ws_dir backup_root readonly_world r.2 Hrun).
  vm_compute. reflexivity.
Defined.



(** X9.  After a plan is applied with success no temporary file is left:
    the path of the temporary file has no node. *)
Theorem apply_plan_no_temp_left `{RT : Runtime} :
  ∀ (plan : WorkspacePlan) (workspaces_dir backup_dir : Path) (w w' : World),
    apply_plan [plan] workspaces_dir backup_dir w = ((1, 0), w') →
    with_tmp_suffix (path plan)
    = Ok (removelast (path plan) ++ [path_name (path plan) +:+ ".tmp"])
    ∧ nodes w' !! (removelast (path plan) ++ [path_name (path plan) +:+ ".tmp"]) = None.
Proof.
  intros plan wd bd w w' [_ Hone]%apply_plan_single.
  apply apply_one_ok in Hone
    as (text & data & rel & tmp & w2 & _ & _ & _ & _ & Htmp & Hrep).
  pose proof Htmp as Htmp'. unfold with_tmp_suffix in Htmp'.
  case_bool_decide; [done|]. injection Htmp' as <-.
  split; [by rewrite Htmp|].
  apply replace_ok in Hrep as (c & _ & ->). simpl.
  rewrite lookup_insert_ne by (apply tmp_name_ne).
  apply lookup_delete_eq.
Qed.

Lemma apply_plan_no_temp_left_witness :
  let plan := build_plan (RT:=example_runtime) legacy_path true false example_world in
  let r := apply_plan (RT:=example_runtime) [plan] ws_dir backup_root example_world in
  r.1 = (1, 0) ∧ nodes r.2 !! ["/"; "w"; "u"; "legacy.json.tmp"] = None.
Proof.
  intros plan r.
  assert (Hrun : apply_plan (RT:=example_runtime) [plan] ws_dir backup_root example_world
                 = ((1, 0), r.2)) by (vm_compute; reflexivity).
  split; [vm_compute; reflexivity|].
  destruct (apply_plan_no_temp_left (RT:=example_runtime)
              plan ws_dir backup_root example_world r.2 Hrun) as [_ Hnone].
  assert (Hpath : path plan = legacy_path) by (vm_compute; reflexivity).
  rewrite Hpath in Hnone. exact Hnone.
Defined.

(** ** The summary *)

Section Summary.
Context `{RT : Runtime}.
Implicit Types (plan : WorkspacePlan) (plans : list WorkspacePlan).

Lemma length_filter_cons {A} (P : A → Prop) `{!∀ x, Decision (P x)} (x : A) (l : list A) :
  length (filter P (x :: l)) = (if decide (P x) then 1 else 0) + length (filter P l).
Proof. rewrite filter_cons. by destruct (decide (P x)). Qed.

(** The two counts of [apply_plan] add up to the number of changed,
    non-skipped plans. *)
Lemma apply_plan_counts plans wd bd w :
  (apply_plan plans wd bd w).1.1 + (apply_plan plans wd bd w).1.2
  = length (filter eligible plans).
Proof.
  revert w. induction plans as [|plan rest IH]; intros w; [done|].
  rewrite length_filter_cons.
  destruct (eligible plan) eqn:Hel.
  - rewrite apply_plan_cons_eligible by done.
    destruct (apply_one plan wd bd w) as [[[]|err] w1].
    + specialize (IH w1). destruct (apply_plan rest wd bd w1) as [[c f] w2].
      simpl in *. lia.
    + specialize (IH (eprint (error_line plan err) w1)).
      destruct (apply_plan rest wd bd _) as [[c f] w2].
      simpl in *. lia.
  - rewrite apply_plan_cons_skip by done. simpl. apply IH.
Qed.

(** A plan of [build_plan] that is not skipped carries no error. *)
Lemma build_plan_error_skipped path include_todos force w :
  skipped (build_plan path include_todos force w) = false →
  error (build_plan path include_todos force w) = None.
Proof.
  unfold build_plan. destruct (load_json path w) as [[v|err] w0]; [|done].
  destruct v; try done. by case_match.
Qed.

(** A summary without errors: no plan has an error text. *)
Lemma summarize_errors_zero plans :
  (summarize plans).2 = 0 → Forall (λ plan, has_error plan = false) plans.
Proof.
  unfold summarize. simpl. induction plans as [|plan rest IH]; [constructor|].
  rewrite length_filter_cons. destruct (has_error plan) eqn:Herr; simpl; [done|].
  intros Hrest. constructor; [done|by apply IH].
Qed.

End Summary.

(** X10.  [summarize] puts every plan in exactly one class: the total is the
    number of plans and equals the plans with an error text, plus the
    skipped ones without error, plus the changed ones that are neither,
    plus the plans that are neither changed nor skipped (no-ops), which the
    summary does not report. *)
Theorem summarize_partition :
  ∀ plans : list WorkspacePlan,
    let '(total, n_changed, n_skipped, n_errors) := summarize plans in
    total = length plans
    ∧ total
      = n_errors + n_skipped + n_changed
        + length (filter (λ p, (negb (changed p) && negb (skipped p)
                                && negb (has_error p)) = true) plans).
Proof.
  intros plans. unfold summarize. split; [done|].
  induction plans as [|plan rest IH]; [done|].
  rewrite !length_filter_cons. cbn [length]. rewrite IH.
  destruct (has_error plan), (skipped plan), (changed plan); simpl; lia.
Qed.

(** X11.  For plans made by [build_plan], the "migrate" count of the summary
    is the number of plans [apply_plan] works on: it equals the applied
    count plus the failed count of [apply_plan], in whatever world the
    batch is applied. *)
Theorem summarize_counts_applied `{RT : Runtime} :
  ∀ (paths : list Path) (include_todos force : bool) (w0 : World)
    (workspaces_dir backup_dir : Path) (w : World),
    let plans := (λ p, build_plan p include_todos force w0) <$> paths in
    let '(_, n_changed, _, _) := summarize plans in
    let '((applied, failed), _) := apply_plan plans workspaces_dir backup_dir w in
    n_changed = applied + failed.
Proof.
  intros paths include_todos force w0 wd bd w plans.
  pose proof (apply_plan_counts plans wd bd w) as Hcounts.
  destruct (apply_plan plans wd bd w) as [[applied failed] w']. simpl in Hcounts.
  unfold summarize. rewrite Hcounts. subst plans. clear.
  induction paths as [|p paths IH]; [done|].
  rewrite fmap_cons, !length_filter_cons, IH. f_equal.
  unfold eligible, has_error.
  destruct (skipped (build_plan p include_todos force w0)) eqn:Hskip.
  - destruct (changed (build_plan p include_todos force w0)),
      (error (build_plan p include_todos force w0)) as [e|]; simpl; try done;
      by destruct (bool_decide (e = "")).
  - rewrite (build_plan_error_skipped _ _ _ _ Hskip).
    by destruct (changed (build_plan p include_todos force w0)).
Qed.

(** ** Workspace discovery *)

Section Discovery.
Implicit Types (p q d wd : Path) (w : World) (us : list string).

Lemma ends_with_spec (suffix s : string) :
  ends_with suffix s = true ↔ ∃ pre, s = pre +:+ suffix.
Proof.
  induction s as [|c s IH]; simpl.
  - rewrite orb_false_r, bool_decide_eq_true. split.
    + intros <-. by exists "".
    + intros ([|c pre] & Heq); [done|]. by rewrite append_cons in Heq.
  - rewrite orb_true_iff, bool_decide_eq_true, IH. split.
    + intros [<-|(pre & ->)]; [by exists ""|]. by exists (String c pre).
    + intros ([|c' pre] & Heq); [by left|].
      rewrite append_cons in Heq. injection Heq as -> ->. right. by exists pre.
Qed.

Lemma elem_of_concat {A} (x : A) (ls : list (list A)) :
  x ∈ concat ls ↔ ∃ l, l ∈ ls ∧ x ∈ l.
Proof.
  induction ls as [|l ls IH]; simpl.
  - split; [by intros ?%elem_of_nil|]. by intros (l & ?%elem_of_nil & _).
  - rewrite elem_of_app, IH. split.
    + intros [Hx|(l' & Hl' & Hx)]; [exists l; split; [left|done]|].
      exists l'. split; [by right|done].
    + intros (l' & [->|Hl']%elem_of_cons & Hx); [by left|]. right. by exists l'.
Qed.

Lemma snoc_prefix_iff p d :
  length p = S (length d) ∧ d `prefix_of` p ↔ ∃ n, p = d ++ [n].
Proof.
  split.
  - intros [Hlen [k ->]]. rewrite length_app in Hlen.
    destruct k as [|n [|? ?]]; simpl in Hlen; try lia. by exists n.
  - intros [n ->]. split; [rewrite length_app; simpl; lia|]. by exists [n].
Qed.

(** The entries of a directory are the nodes one part below it, each once. *)
Lemma children_elem w d p :
  p ∈ children w d ↔ (∃ n, p = d ++ [n]) ∧ is_Some (nodes w !! p).
Proof.
  unfold children. rewrite list_elem_of_filter, snoc_prefix_iff.
  rewrite list_elem_of_fmap. split.
  - intros [Hn ([p' x] & -> & Hx%elem_of_map_to_list)]. split; [done|]. by exists x.
  - intros [Hn [x Hx]]. split; [done|]. exists (p, x). split; [done|].
    by apply elem_of_map_to_list.
Qed.

Lemma children_NoDup w d : NoDup (children w d).
Proof. unfold children. apply NoDup_filter, NoDup_fst_map_to_list. Qed.

Lemma glob_json_elem d w p :
  p ∈ glob_json d w
  ↔ fault w OpRead d = None ∧ is_dir w d = true
    ∧ (∃ n, p = d ++ [n]) ∧ is_Some (nodes w !! p)
    ∧ ends_with ".json" (path_name p) = true.
Proof.
  unfold glob_json.
  destruct (fault w OpRead d); [split; [by intros ?%elem_of_nil|by intros [? _]]|].
  destruct (is_dir w d); [|split; [by intros ?%elem_of_nil|by intros (_ & ? & _)]].
  rewrite list_elem_of_filter, children_elem. tauto.
Qed.

Lemma glob_json_NoDup d w : NoDup (glob_json d w).
Proof.
  unfold glob_json. destruct (fault w OpRead d); [constructor|].
  destruct (is_dir w d); [|constructor]. apply NoDup_filter, children_NoDup.
Qed.

(** A text without ["/"] is one component. *)
Lemma split_slash_component (s : string) :
  (∀ pre post, s ≠ pre +:+ "/" +:+ post) → split_slash s = [s].
Proof.
  induction s as [|c s IH]; intros Hs; simpl; [done|].
  case_bool_decide as Hc.
  - subst c. by destruct (Hs "" s).
  - rewrite IH; [done|]. intros pre post ->. by apply (Hs (String c pre) post).
Qed.

Lemma truediv_component wd (user_id : string) :
  (∀ pre post, user_id ≠ pre +:+ "/" +:+ post) →
  truediv wd user_id
  = if bool_decide (user_id = "" ∨ user_id = ".") then wd else wd ++ [user_id].
Proof.
  intros Hs. unfold truediv, splitroot.
  assert (starts_with_slash user_id = false) as ->.
  { destruct user_id as [|c s]; [done|]. simpl. apply bool_decide_eq_false.
    intros ->. by apply (Hs "" s). }
  simpl. unfold parse_parts. rewrite (split_slash_component _ Hs).
  case_bool_decide as Hid.
  - rewrite filter_cons_False by tauto. by rewrite filter_nil, app_nil_r.
  - rewrite filter_cons_True by tauto. by rewrite filter_nil.
Qed.

Lemma truediv_rooted wd (user_id : string) :
  plain_id user_id → starts_with_slash user_id = true →
  truediv wd user_id = "/" :: parse_parts (str_tail user_id).
Proof.
  unfold plain_id, truediv, splitroot. intros [Hroot _] Hslash.
  rewrite Hslash in Hroot |- *. simpl in *.
  by destruct (negb (starts_with_slash (str_tail user_id))
               || starts_with_slash (str_tail (str_tail user_id))).
Qed.

Lemma sorted_paths_elem (l : list Path) p : p ∈ sorted_paths l ↔ p ∈ l.
Proof. unfold sorted_paths. by rewrite merge_sort_Permutation. Qed.

Lemma sorted_paths_NoDup (l : list Path) : NoDup l → NoDup (sorted_paths l).
Proof. unfold sorted_paths. by rewrite merge_sort_Permutation. Qed.

End Discovery.

Section PathOrder.
Implicit Types (p q r d : Path).

Lemma path_leb_app d p q : path_leb (d ++ p) (d ++ q) = path_leb p q.
Proof. induction d as [|x d IH]; simpl; [done|]. by rewrite bool_decide_eq_true_2. Qed.

Lemma path_le_total : Total path_le.
Proof.
  unfold path_le. intros p. induction p as [|x p IH]; intros q; [by left|].
  destruct q as [|y q]; [by right|]. simpl.
  case_bool_decide as Hxy.
  - subst y. rewrite bool_decide_eq_true_2 by done. apply IH.
  - rewrite bool_decide_eq_false_2 by done. apply String.leb_total.
Qed.

Lemma path_le_trans : Transitive path_le.
Proof.
  unfold path_le. intros p. induction p as [|x p IH]; intros q r Hpq Hqr; [done|].
  destruct q as [|y q]; [done|]. destruct r as [|z r]; [done|]. simpl in *.
  destruct (decide (x = y)) as [->|Hxy].
  - rewrite bool_decide_eq_true_2 in Hpq by done.
    case_bool_decide; [by eapply IH|done].
  - rewrite bool_decide_eq_false_2 in Hpq by done.
    destruct (decide (y = z)) as [->|Hyz].
    + by rewrite bool_decide_eq_false_2.
    + rewrite bool_decide_eq_false_2 in Hqr by done.
      apply Is_true_true in Hpq, Hqr.
      case_bool_decide as Hxz.
      * subst z. destruct Hxy. by apply (anti_symm String.le).
      * apply Is_true_true. by trans y.
Qed.

Lemma sorted_paths_sorted (l : list Path) : StronglySorted path_le (sorted_paths l).
Proof.
  unfold sorted_paths.
  apply (@StronglySorted_merge_sort _ path_le _ path_le_trans path_le_total).
Qed.

(** Blocks of entries, one per directory, put one after the other in the
    order of the directories, are in order and without duplicate. *)
Lemma concat_blocks_sorted wd (block : Path → list Path) (ds : list Path) :
  StronglySorted path_le ds → NoDup ds →
  (∀ d, d ∈ ds → ∃ u, d = wd ++ [u]) →
  (∀ d, StronglySorted path_le (block d) ∧ NoDup (block d)
        ∧ ∀ p, p ∈ block d → ∃ n, p = d ++ [n]) →
  StronglySorted path_le (concat (block <$> ds)) ∧ NoDup (concat (block <$> ds)).
Proof.
  intros Hsorted Hnodup Hds Hblock.
  induction ds as [|d ds IH]; [split; constructor|].
  rewrite fmap_cons. simpl.
  apply StronglySorted_cons in Hsorted as [Hle Hsorted].
  apply NoDup_cons in Hnodup as [Hd Hnodup].
  destruct IH as [IHs IHn]; [done|done|by intros d' ?; apply Hds; right|].
  destruct (Hblock d) as (Hbs & Hbn & Hbe).
  assert (Hcross : ∀ x1 x2, x1 ∈ block d → x2 ∈ concat (block <$> ds) →
                            path_le x1 x2 ∧ x1 ≠ x2).
  { intros x1 x2 [n1 ->]%Hbe (l & (d' & -> & Hd')%list_elem_of_fmap & Hx2)%elem_of_concat.
    destruct (Hblock d') as (_ & _ & Hbe'). apply Hbe' in Hx2 as [n2 ->].
    assert (d ≠ d') as Hne by (by intros ->).
    rewrite Forall_forall in Hle. specialize (Hle d' Hd').
    destruct (Hds d) as [u ->]; [left|].
    destruct (Hds d') as [u' ->]; [by right|].
    unfold path_le in *. rewrite path_leb_app in Hle. simpl in Hle.
    assert (u ≠ u') as Hu by (by intros ->).
    rewrite bool_decide_eq_false_2 in Hle by done.
    split.
    - rewrite <- !app_assoc, path_leb_app. simpl.
      by rewrite bool_decide_eq_false_2.
    - intros Heq. apply app_inj_tail in Heq as [Heq _]. done. }
  split.
  - apply StronglySorted_app. split; [|done]. intros x1 x2 H1 H2.
    by apply Hcross.
  - apply NoDup_app. split; [done|]. split; [|done].
    intros x Hx Hx'. by destruct (Hcross x x Hx Hx').
Qed.

End PathOrder.

(** X12.  [discover_workspace_files] raises only when no user id is given
    and the root exists but cannot be listed (it is a file, or reading it
    fails); with user ids it always returns a list.  A root that does not
    exist gives the empty list. *)
Theorem discover_errors :
  ∀ (workspaces_dir : Path) (user_ids : list string) (w : World),
    match discover_workspace_files workspaces_dir user_ids w with
    | Raise err =>
        user_ids = [] ∧ exists_ w workspaces_dir = true
        ∧ iterdir workspaces_dir w = Raise err
        ∧ (fault w OpRead workspaces_dir = Some err
           ∨ is_dir w workspaces_dir = false ∧ err = enotdir workspaces_dir)
    | Ok files => exists_ w workspaces_dir = false → files = []
    end.
Proof.
  intros wd us w. unfold discover_workspace_files.
  destruct (exists_ w wd) eqn:Hex; simpl; [|done].
  destruct us as [|u us]; [|done].
  destruct (iterdir wd w) as [entries|err] eqn:Hiter; [done|].
  repeat split; try done.
  unfold iterdir in Hiter. destruct (fault w OpRead wd); [left; congruence|].
  destruct (is_dir w wd); [done|]. rewrite Hex in Hiter. right. split; congruence.
Qed.

Lemma discover_errors_witness :
  discover_workspace_files legacy_path [] example_world
  = Raise "[Errno 20] Not a directory: '/w/u/legacy.json'"
  ∧ is_dir example_world legacy_path = false
  ∧ discover_workspace_files ["/"; "nowhere"] [] example_world = Ok [].
Proof.
  pose proof (discover_errors legacy_path [] example_world) as Hraise.
  pose proof (discover_errors ["/"; "nowhere"] [] example_world) as Hmissing.
  assert (Hr : discover_workspace_files legacy_path [] example_world
               = Raise "[Errno 20] Not a directory: '/w/u/legacy.json'")
    by (vm_compute; reflexivity).
  rewrite Hr in Hraise. destruct Hraise as (_ & _ & _ & [Hfault|[Hdir _]]).
  - vm_compute in Hfault. discriminate Hfault.
  - split; [exact Hr|]. split; [exact Hdir|].
    destruct (discover_workspace_files ["/"; "nowhere"] [] example_world)
      as [files|err] eqn:Hd; [|vm_compute in Hd; discriminate Hd].
    rewrite Hmissing; [reflexivity|]. vm_compute. reflexivity.
Defined.

(** X13.  The files [discover_workspace_files] returns are exactly the
    entries [<user_dir>/<name>] whose name ends with ".json", in a user
    directory that is a directory and can be listed.  With user ids, the
    user directory is [workspaces_dir / user_id] for one of them, joined as
    [pathlib] does: an id without ["/"] is one part below the root, or the
    root itself when it is empty or ["."]; an id that starts with ["/"]
    replaces the root.  Without user ids, the user directory is any entry
    of the root.  The user ids are those whose directory the system finds
    part by part. *)
Theorem discover_files :
  ∀ (workspaces_dir : Path) (user_ids : list string) (w : World) (files : list Path),
    discover_workspace_files workspaces_dir user_ids w = Ok files →
    Forall plain_id user_ids →
    (∀ p, p ∈ files
          ↔ exists_ w workspaces_dir = true
            ∧ ∃ user_dir name,
                p = user_dir ++ [name]
                ∧ match user_ids with
                  | [] => (∃ user, user_dir = workspaces_dir ++ [user])
                          ∧ is_Some (nodes w !! user_dir)
                  | _ => ∃ user_id, user_id ∈ user_ids
                                    ∧ user_dir = truediv workspaces_dir user_id
                  end
                ∧ fault w OpRead user_dir = None
                ∧ is_dir w user_dir = true
                ∧ is_Some (nodes w !! p)
                ∧ ends_with ".json" (path_name p) = true)
    ∧ (∀ user_id, user_id ∈ user_ids →
         ((∀ pre post, user_id ≠ pre +:+ "/" +:+ post) →
          truediv workspaces_dir user_id
          = if bool_decide (user_id = "" ∨ user_id = ".") then workspaces_dir
            else workspaces_dir ++ [user_id])
         ∧ (starts_with_slash user_id = true →
            truediv workspaces_dir user_id = "/" :: parse_parts (str_tail user_id))).
Proof.
  intros wd us w files Hfiles Hplain. split.
  - intros p. unfold discover_workspace_files in Hfiles.
    destruct (exists_ w wd) eqn:Hex; cbn [negb] in Hfiles.
    2:{ injection Hfiles as <-. split; [by intros ?%elem_of_nil|by intros [? _]]. }
    destruct us as [|u0 us].
    + destruct (iterdir wd w) as [entries|err] eqn:Hiter; [|done].
      injection Hfiles as <-.
      assert (entries = children w wd) as ->.
      { unfold iterdir in Hiter. destruct (fault w OpRead wd); [done|].
        destruct (is_dir w wd); [congruence|]. by rewrite Hex in Hiter. }
      rewrite elem_of_concat. split.
      * intros (l & (d & -> & Hd)%list_elem_of_fmap & Hp). split; [done|].
        apply sorted_paths_elem, children_elem in Hd as [Huser Hnode].
        destruct (is_dir w d) eqn:Hdir; simpl in Hp; [|by apply elem_of_nil in Hp].
        apply sorted_paths_elem, glob_json_elem in Hp
          as (Hfault & _ & [name ->] & Hfile & Hjson).
        exists d, name. by repeat split.
      * intros (_ & d & name & -> & [Huser Hnode] & Hfault & Hdir & Hfile & Hjson).
        exists (sorted_paths (glob_json d w)). split.
        -- apply list_elem_of_fmap. exists d. rewrite Hdir. split; [done|].
           by apply sorted_paths_elem, children_elem.
        -- apply sorted_paths_elem, glob_json_elem. repeat split; try done.
           by exists name.
    + assert (files = concat ((λ user_id,
                  if negb (exists_ w (truediv wd user_id)) then []
                  else sorted_paths (glob_json (truediv wd user_id) w))
                <$> u0 :: us)) as -> by (by injection Hfiles as <-).
      clear Hfiles Hplain. generalize (u0 :: us) as ids. intros ids.
      rewrite elem_of_concat. split.
      * intros (l & (user & -> & Huser)%list_elem_of_fmap & Hp). split; [done|].
        destruct (exists_ w (truediv wd user)); simpl in Hp;
          [|by apply elem_of_nil in Hp].
        apply sorted_paths_elem, glob_json_elem in Hp
          as (Hfault & Hdir & [name ->] & Hfile & Hjson).
        exists (truediv wd user), name. split; [done|]. split; [by exists user|].
        by repeat split.
      * intros (_ & d & name & -> & (user & Huser & ->) & Hfault & Hdir & Hfile & Hjson).
        exists (sorted_paths (glob_json (truediv wd user) w)). split.
        -- apply list_elem_of_fmap. exists user. split; [|done].
           unfold exists_. by rewrite Hdir.
        -- apply sorted_paths_elem, glob_json_elem. repeat split; try done.
           by exists name.
  - intros user_id Hin. rewrite Forall_forall in Hplain.
    specialize (Hplain user_id Hin). split.
    + apply truediv_component.
    + intros Hroot. by apply truediv_rooted.
Qed.

Lemma discover_files_witness :
  discover_workspace_files ["/"; "w"; "u"] [""; "/w/./u/"] example_world
  = Ok ([array_path; broken_path; explicit_path; legacy_path; stringly_path]
        ++ [array_path; broken_path; explicit_path; legacy_path; stringly_path])
  ∧ Forall plain_id [""; "/w/./u/"]
  ∧ truediv ["/"; "w"; "u"] "" = ["/"; "w"; "u"]
  ∧ truediv ["/"; "w"; "u"] "/w/./u/" = ["/"; "w"; "u"]
  ∧ discover_workspace_files ws_dir ["u"] example_world
    = Ok [array_path; broken_path; explicit_path; legacy_path; stringly_path]
  ∧ truediv ws_dir "u" = ["/"; "w"; "u"].
Proof.
  assert (Hplain : ∀ user_id, (splitroot user_id).1 = "" ∨ (splitroot user_id).1 = "/" →
                     bool_decide (".." ∈ parse_parts (splitroot user_id).2) = false →
                     plain_id user_id).
  { intros user_id Hroot Hparts%bool_decide_eq_false. split; [|done].
    by destruct Hroot as [-> | ->]. }
  assert (Hids : Forall plain_id [""; "/w/./u/"]).
  { repeat constructor; apply Hplain; vm_compute; auto. }
  assert (Hu : Forall plain_id ["u"]).
  { repeat constructor; apply Hplain; vm_compute; auto. }
  assert (Hfiles : discover_workspace_files ["/"; "w"; "u"] [""; "/w/./u/"] example_world
                   = Ok ([array_path; broken_path; explicit_path; legacy_path;
                          stringly_path]
                         ++ [array_path; broken_path; explicit_path; legacy_path;
                             stringly_path])) by (vm_compute; reflexivity).
  assert (Hfiles' : discover_workspace_files ws_dir ["u"] example_world
                    = Ok [array_path; broken_path; explicit_path; legacy_path;
                          stringly_path]) by (vm_compute; reflexivity).
  split; [exact Hfiles|]. split; [exact Hids|].
  destruct (discover_files _ _ _ _ Hfiles Hids) as [_ Hjoin].
  destruct (discover_files _ _ _ _ Hfiles' Hu) as [_ Hjoin'].
  split; [|split; [|split; [exact Hfiles'|]]].
  - rewrite (proj1 (Hjoin "" ltac:(left))); [vm_compute; reflexivity|].
    intros [|c pre] post; simpl; discriminate.
  - rewrite (proj2 (Hjoin "/w/./u/" ltac:(right; left))); vm_compute; reflexivity.
  - rewrite (proj1 (Hjoin' "u" ltac:(left))); [vm_compute; reflexivity|].
    intros [|c [|c' pre]] post; simpl; discriminate.
Defined.

(** X14.  Without user ids, and for a single user id, the list
    [discover_workspace_files] returns is in the order of [sorted] on paths
    (user directories in order, then file names in order) and names no file
    twice, however the system lists the directories. *)
Theorem discover_sorted :
  ∀ (workspaces_dir : Path) (user_ids : list string) (w : World) (files : list Path),
    discover_workspace_files workspaces_dir user_ids w = Ok files →
    (length user_ids ≤ 1)%nat →
    StronglySorted path_le files ∧ NoDup files.
Proof.
  intros wd us w files Hfiles Hlen. unfold discover_workspace_files in Hfiles.
  destruct (negb (exists_ w wd)); [injection Hfiles as <-; split; constructor|].
  assert (Hblock : ∀ d,
    StronglySorted path_le (sorted_paths (glob_json d w))
    ∧ NoDup (sorted_paths (glob_json d w))
    ∧ ∀ p, p ∈ sorted_paths (glob_json d w) → ∃ n, p = d ++ [n]).
  { intros d. split; [apply sorted_paths_sorted|].
    split; [apply sorted_paths_NoDup, glob_json_NoDup|].
    by intros p (_ & _ & Hn & _)%sorted_paths_elem%glob_json_elem. }
  destruct us as [|u [|u' us]]; [| |simpl in Hlen; lia].
  - destruct (iterdir wd w) as [entries|err] eqn:Hiter; [|done].
    injection Hfiles as <-.
    assert (entries = children w wd) as ->.
    { unfold iterdir in Hiter. destruct (fault w OpRead wd); [done|].
      destruct (is_dir w wd); [congruence|]. by destruct (exists_ w wd). }
    apply (concat_blocks_sorted wd
             (λ d, if negb (is_dir w d) then [] else sorted_paths (glob_json d w))).
    + apply sorted_paths_sorted.
    + apply sorted_paths_NoDup, children_NoDup.
    + by intros d [Hn _]%sorted_paths_elem%children_elem.
    + intros d. destruct (negb (is_dir w d)); [|apply Hblock].
      split; [constructor|]. split; [constructor|]. by intros p ?%elem_of_nil.
  - injection Hfiles as <-. rewrite app_nil_r.
    destruct (negb (exists_ w (truediv wd u))); [split; constructor|].
    destruct (Hblock (truediv wd u)) as (? & ? & _). done.
Qed.

Lemma discover_sorted_witness :
  discover_workspace_files ws_dir [] example_world
  = Ok [array_path; broken_path; explicit_path; legacy_path; stringly_path]
  ∧ StronglySorted path_le
      [array_path; broken_path; explicit_path; legacy_path; stringly_path].
Proof.
  assert (Hfiles : discover_workspace_files ws_dir [] example_world
                   = Ok [array_path; broken_path; explicit_path; legacy_path;
                         stringly_path]) by (vm_compute; reflexivity).
  split; [exact Hfiles|].
  apply (discover_sorted ws_dir [] example_world _ Hfiles). simpl. lia.
Defined.

(** X15.  With user ids the files come user by user in the order given:
    the result for two lists of user ids put together is the result for
    the first followed by the result for the second.  A user id given
    twice has its files listed twice. *)
Theorem discover_user_ids_app :
  ∀ (workspaces_dir : Path) (ids1 ids2 : list string) (w : World),
    ids1 ≠ [] → ids2 ≠ [] →
    ∃ files1 files2,
      discover_workspace_files workspaces_dir ids1 w = Ok files1
      ∧ discover_workspace_files workspaces_dir ids2 w = Ok files2
      ∧ discover_workspace_files workspaces_dir (ids1 ++ ids2) w = Ok (files1 ++ files2).
Proof.
  intros wd ids1 ids2 w H1 H2. unfold discover_workspace_files.
  destruct (negb (exists_ w wd)); [by exists [], []|].
  destruct ids1 as [|u1 ids1]; [done|]. destruct ids2 as [|u2 ids2]; [done|].
  eexists _, _. split; [reflexivity|]. split; [reflexivity|].
  rewrite <- app_comm_cons. by rewrite <- concat_app, <- fmap_app, app_comm_cons.
Qed.

Lemma discover_user_ids_app_witness :
  discover_workspace_files ws_dir (["u"] ++ ["u"]) example_world
  = Ok ([array_path; broken_path; explicit_path; legacy_path; stringly_path]
        ++ [array_path; broken_path; explicit_path; legacy_path; stringly_path]).
Proof.
  destruct (discover_user_ids_app ws_dir ["u"] ["u"] example_world)
    as (files1 & files2 & Hf1 & Hf2 & Happ); [discriminate|discriminate|].
  rewrite Happ.
  vm_compute in Hf1. injection Hf1 as <-.
  vm_compute in Hf2. injection Hf2 as <-.
  reflexivity.
Defined.

(** ** The entry point *)

Section MainProperties.
Context `{RT : Runtime}.
Implicit Types (env : Env) (args : Args) (w : World).

(** The lines [apply_plan] adds to standard error are as many as the
    failures it counts. *)
Lemma apply_plan_stderr plans wd bd w :
  ∃ lines, stderr (apply_plan plans wd bd w).2 = stderr w ++ lines
           ∧ length lines = (apply_plan plans wd bd w).1.2.
Proof.
  revert w. induction plans as [|plan rest IH]; intros w.
  - exists []. by rewrite app_nil_r.
  - destruct (eligible plan) eqn:Hel.
    + rewrite apply_plan_cons_eligible by done.
      pose proof (apply_one_env plan wd bd w) as [_ Herr].
      destruct (apply_one plan wd bd w) as [[[]|err] w1]; simpl in Herr.
      * destruct (IH w1) as (lines & Hlines & Hlen).
        destruct (apply_plan rest wd bd w1) as [[c f] w2]. simpl in *.
        exists lines. by rewrite Hlines, Herr.
      * destruct (IH (eprint (error_line plan err) w1)) as (lines & Hlines & Hlen).
        destruct (apply_plan rest wd bd _) as [[c f] w2]. simpl in *.
        exists (error_line plan err :: lines). rewrite Hlines, Herr.
        split; [by rewrite <- app_assoc|]. simpl. by rewrite Hlen.
    + rewrite apply_plan_cons_skip by done. apply IH.
Qed.

End MainProperties.

(** X16.  A dry run never writes: without [--apply], [main] leaves the world
    (files, directories, standard error) exactly as it found it, and ends
    with the exit code 0 or 2, or with the exception of the discovery. *)
Theorem main_dry_run `{RT : Runtime} :
  ∀ (env : Env) (args : Args) (w : World),
    args_apply args = false →
    (main env args w).2 = w
    ∧ match (main env args w).1.1 with
      | Ok code => code = 0 ∨ code = 2
      | Raise err =>
          discover_workspace_files (resolve env (args_workspaces_dir args))
            (args_user_id args) w = Raise err
      end.
Proof.
  intros env args w Hdry. unfold main. rewrite Hdry.
  destruct (discover_workspace_files _ _ w) as [[|p files]|err];
    [by split; [|left]| |done].
  match goal with |- context [summarize ?plans] =>
    destruct (summarize plans) as [[[total n_changed] n_skipped] n_errors] end.
  simpl. split; [done|]. unfold exit_code. destruct (n_errors =? 0)%nat; auto.
Qed.

Lemma main_dry_run_witness :
  let args := {| args_workspaces_dir := ws_dir; args_user_id := [];
                 args_include_todos := "auto"; args_force := false;
                 args_apply := false; args_backup_dir := None |} in
  (main (RT:=example_runtime) example_env args example_world).2 = example_world
  ∧ (main (RT:=example_runtime) example_env args example_world).1.1 = Ok 2.
Proof.
  intros args.
  destruct (main_dry_run (RT:=example_runtime) example_env args example_world eq_refl)
    as [Hworld _].
  split; [exact Hworld|]. vm_compute. reflexivity.
Defined.

(** X17.  With [--apply], when the summary counts no plan to migrate, [main]
    writes nothing either: no backup directory is made and the world is
    left as it was. *)
Theorem main_nothing_to_migrate `{RT : Runtime} :
  ∀ (env : Env) (args : Args) (w : World) (files : list Path),
    discover_workspace_files (resolve env (args_workspaces_dir args))
      (args_user_id args) w = Ok files →
    (let include_todos :=
       should_include_todos (args_include_todos args)
         (resolve env (default_todos_path env)) w in
     let plans := (λ p, build_plan p include_todos (args_force args) w) <$> files in
     (summarize plans).1.1.2 = 0) →
    (main env args w).2 = w.
Proof.
  intros env args w files Hfiles Hzero. unfold main. rewrite Hfiles.
  destruct files as [|p files]; [done|]. cbv zeta in Hzero.
  match goal with |- context [summarize ?plans] =>
    destruct (summarize plans) as [[[total n_changed] n_skipped] n_errors] end.
  simpl in Hzero. subst n_changed. simpl. by destruct (negb (args_apply args)).
Qed.

Lemma main_nothing_to_migrate_witness :
  let args := {| args_workspaces_dir := ws_dir; args_user_id := [];
                 args_include_todos := "never"; args_force := false;
                 args_apply := true; args_backup_dir := None |} in
  let w := {| nodes := list_to_map
                [(["/"; "w"], Dir); (["/"; "w"; "u"], Dir);
                 (explicit_path, File explicit_text)];
              fault := no_fault; stderr := [] |} in
  discover_workspace_files ws_dir [] w = Ok [explicit_path]
  ∧ (main (RT:=example_runtime) example_env args w).2 = w
  ∧ (main (RT:=example_runtime) example_env args w).1.1 = Ok 0.
Proof.
  intros args w.
  assert (Hfiles : discover_workspace_files ws_dir [] w = Ok [explicit_path])
    by (vm_compute; reflexivity).
  split; [exact Hfiles|]. split; [|vm_compute; reflexivity].
  apply (main_nothing_to_migrate (RT:=example_runtime) example_env args w
           [explicit_path] Hfiles).
  vm_compute. reflexivity.
Defined.

(** X18.  The exit code of [main] is 0 or 2.  It is 0 only if no discovered
    file gave a plan with an error and nothing was written to standard
    error: no plan failed to apply. *)
Theorem main_exit_code `{RT : Runtime} :
  ∀ (env : Env) (args : Args) (w w' : World) (code : nat) (out : list string),
    main env args w = (Ok code, out, w') →
    (code = 0 ∨ code = 2)
    ∧ (code = 0 →
       stderr w' = stderr w
       ∧ ∀ files,
           discover_workspace_files (resolve env (args_workspaces_dir args))
             (args_user_id args) w = Ok files →
           Forall (λ p, has_error
                          (build_plan p
                             (should_include_todos (args_include_todos args)
                                (resolve env (default_todos_path env)) w)
                             (args_force args) w) = false) files).
Proof.
  intros env args w w' code out. unfold main.
  set (include_todos := should_include_todos _ _ w).
  destruct (discover_workspace_files _ _ w) as [[|p files]|err]; [| |done].
  { intros [= <- _ <-]. split; [by left|]. intros _. split; [done|].
    by intros files [= <-]. }
  set (plans := _ <$> (p :: files)).
  pose proof (summarize_errors_zero plans) as Hzero.
  destruct (summarize plans) as [[[total n_changed] n_skipped] n_errors].
  simpl in Hzero.
  assert (Hall : n_errors = 0 →
                 ∀ files', Ok (p :: files) = Ok files' →
                   Forall (λ p, has_error (build_plan p include_todos
                                             (args_force args) w) = false) files').
  { intros Hn files' [= <-]. specialize (Hzero Hn).
    subst plans. by apply Forall_fmap in Hzero. }
  destruct (negb (args_apply args)).
  { intros [= <- _ <-]. unfold exit_code.
    destruct n_errors; simpl; [|by split; [right|]].
    split; [by left|]. intros _. split; [done|]. by apply Hall. }
  destruct (n_changed =? 0)%nat.
  { intros [= <- _ <-]. unfold exit_code.
    destruct n_errors; simpl; [|by split; [right|]].
    split; [by left|]. intros _. split; [done|]. by apply Hall. }
  set (bd := resolve env _).
  pose proof (mkdir_from_env
                (take (length bd - length (tail_parts bd)) bd) (tail_parts bd) w)
    as [_ Hmk].
  fold (mkdir_parents bd) in Hmk.
  destruct (mkdir_parents bd w) as [[[]|err] w1]; [|done]. simpl in Hmk.
  destruct (apply_plan_stderr plans (resolve env (args_workspaces_dir args)) bd w1)
    as (lines & Hlines & Hlen).
  destruct (apply_plan plans _ bd w1) as [[applied failed] w2]. simpl in *.
  destruct failed as [|failed]; simpl; [|by intros [= <- _ <-]; split; [right|]].
  destruct n_errors as [|n_errors]; simpl; intros [= <- _ <-];
    [|by split; [right|]].
  split; [by left|]. intros _. destruct lines; [|done].
  rewrite app_nil_r in Hlines. split; [congruence|]. by apply Hall.
Qed.

Lemma main_exit_code_witness :
  let args := {| args_workspaces_dir := ws_dir; args_user_id := ["u"];
                 args_include_todos := "never"; args_force := false;
                 args_apply := true; args_backup_dir := Some backup_root |} in
  let w := {| nodes := list_to_map
                [(["/"; "w"], Dir); (["/"; "w"; "u"], Dir);
                 (legacy_path, File legacy_text)];
              fault := no_fault; stderr := [] |} in
  let r := main (RT:=example_runtime) example_env args w in
  r.1.1 = Ok 0 ∧ stderr r.2 = [] ∧ nodes r.2 !! legacy_path ≠ nodes w !! legacy_path.
Proof.
  intros args w r.
  assert (Hrun : main (RT:=example_runtime) example_env args w = (Ok 0, r.1.2, r.2))
    by (vm_compute; reflexivity).
  split; [vm_compute; reflexivity|].
  destruct (main_exit_code (RT:=example_runtime) example_env args w _ _ _ Hrun)
    as [_ Hzero].
  destruct (Hzero eq_refl) as [Hstderr _].
  split; [exact Hstderr|]. vm_compute. discriminate.
Defined.

(** ** Running again under [force] *)

(** X19.  After a file is migrated with success, planning it again under
    [force] with the same todos policy changes nothing: the new plan is
    not skipped, is not changed, and has the after extensions of the plan
    that was applied (given that the written file decodes to the object
    that was serialized). *)
Theorem force_rerun_noop `{RT : Runtime} :
  ∀ (p : Path) (include_todos force : bool) (workspaces_dir backup_dir : Path)
    (w w' : World),
    apply_plan [build_plan p include_todos force w] workspaces_dir backup_dir w
    = ((1, 0), w') →
    (∀ text data,
       nodes w !! p = Some (File text) → json_loads text = Ok (JDict data) →
       let data' :=
         dict_set (dict_set data "extensionMode" (JString "explicit")) "extensions"
           (JList (JString <$> after_extensions (build_plan p include_todos force w))) in
       json_loads (json_dumps (JDict data') +:+ String "010" "") = Ok (JDict data')) →
    let again := build_plan p include_todos true w' in
    skipped again = false ∧ changed again = false
    ∧ before_extensions again = after_extensions (build_plan p include_todos force w)
    ∧ after_extensions again = after_extensions (build_plan p include_todos force w).
Proof.
  intros p include_todos force wd bd w w' Hrun Hround again.
  apply apply_plan_single in Hrun as [Hel Hone].
  assert (Hskip : skipped (build_plan p include_todos force w) = false).
  { unfold eligible in Hel. by destruct (skipped _); [rewrite andb_false_r in Hel|]. }
  assert (Hmode : after_mode (build_plan p include_todos force w) = "explicit").
  { unfold build_plan. destruct (load_json p w) as [[v|err] w0]; [|done].
    destruct v; try done. by case_match. }
  (* the plan that was applied *)
  destruct (build_plan_not_skipped p include_todos force w Hskip)
    as (data0 & Hload0 & _ & Hafter).
  pose proof (build_plan_extension_sets_aux p include_todos force w) as Hcanon.
  set (A := after_extensions (build_plan p include_todos force w)) in *.
  assert (Hmem : truthy (dict_get data0 "memoryEnabled") = true → "memory" ∈ A).
  { intros Ht. rewrite Hafter. cbv zeta. rewrite Ht.
    repeat case_decide; rewrite ?elem_of_app, ?list_elem_of_singleton;
      destruct (decide ("memory" ∈ (if force
                                    then before_extensions
                                           (build_plan p include_todos force w)
                                    else [])));
      intuition. }
  assert (Htodos : include_todos = true → "todos" ∈ A).
  { intros ->. rewrite Hafter. cbv zeta.
    match goal with |- context [decide (true = true ∧ "todos" ∉ ?l)] =>
      destruct (decide (true = true ∧ "todos" ∉ l)) as [Hd|Hd];
      [apply elem_of_app; right; by left|];
      destruct (decide ("todos" ∈ l)); [done|by destruct Hd]
    end. }
  (* the file that was written *)
  apply apply_one_written in Hone as (text & data & Hfile & Hloads & _ & Hreload).
  rewrite build_plan_path in Hfile, Hreload. rewrite Hmode in Hreload.
  fold A in Hreload.
  specialize (Hreload (Hround text data Hfile Hloads)).
  assert (data0 = data) as ->.
  { destruct (load_json p w) as [r w0] eqn:Hl. simpl in Hload0. subst r.
    apply load_json_ok in Hl as [_ (text' & Hfile' & Hloads')]. congruence. }
  (* the second plan *)
  subst again. unfold build_plan. rewrite Hreload.
  rewrite dict_lookup_get_explicit. rewrite andb_false_r.
  assert (Hext : normalize_extensions
                   (dict_get (dict_set (dict_set data "extensionMode" (JString "explicit"))
                                "extensions" (JList (JString <$> A))) "extensions") = A).
  { unfold dict_get. rewrite dict_lookup_set_eq.
    destruct Hcanon as [Hnd Hall]. rewrite normalize_extensions_list.
    rewrite trimmed_names_fixed by done. by apply first_occurrences_fixed. }
  assert (Hflag : dict_get (dict_set (dict_set data "extensionMode" (JString "explicit"))
                              "extensions" (JList (JString <$> A))) "memoryEnabled"
                  = dict_get data "memoryEnabled").
  { unfold dict_get. by rewrite !dict_lookup_set_ne. }
  cbv zeta. rewrite Hext, Hflag.
  assert (Hm : (truthy (dict_get data "memoryEnabled") && negb (contains A "memory"))
               = false).
  { destruct (truthy (dict_get data "memoryEnabled")); [|done].
    unfold contains. by rewrite bool_decide_eq_true_2 by (by apply Hmem). }
  rewrite Hm.
  assert (Ht : (include_todos && negb (contains A "todos")) = false).
  { destruct include_todos; [|done].
    unfold contains. by rewrite bool_decide_eq_true_2 by (by apply Htodos). }
  rewrite Ht. cbn [skipped changed before_extensions after_extensions].
  by rewrite !bool_decide_eq_true_2.
Qed.

Lemma force_rerun_noop_witness :
  let plan := build_plan (RT:=reloading_runtime) legacy_path true false example_world in
  let r := apply_plan (RT:=reloading_runtime) [plan] ws_dir backup_root example_world in
  let again := build_plan (RT:=reloading_runtime) legacy_path true true r.2 in
  r.1 = (1, 0) ∧ changed again = false ∧ after_extensions again = ["memory"; "todos"].
Proof.
  intros plan r again.
  assert (Hrun : apply_plan (RT:=reloading_runtime) [plan] ws_dir backup_root
                   example_world = ((1, 0), r.2)) by (vm_compute; reflexivity).
  split; [vm_compute; reflexivity|].
  destruct (force_rerun_noop (RT:=reloading_runtime) legacy_path true false
              ws_dir backup_root example_world r.2 Hrun) as (_ & Hc & _ & Ha).
  - intros text data Hfile Hloads.
    assert (text = legacy_text) as ->
      by (vm_compute in Hfile; injection Hfile as <-; reflexivity).
    assert (data = legacy_data) as ->
      by (vm_compute in Hloads; injection Hloads as <-; reflexivity).
    vm_compute. reflexivity.
  - split; [exact Hc|]. etrans; [exact Ha|]. vm_compute. reflexivity.
Defined.
